(** * digital-twin backend: conversation store, regional failover, chat

    A shallow embedding of [backend/server.py].  The three parts of the
    service are modelled as the source has them:

    - the conversation store ([get_memory_path], [load_conversation],
      [save_conversation]) over a local directory or an S3 bucket;
    - the Bedrock dispatcher ([call_bedrock]) with its process-wide
      [current_region_index] and the failover loop;
    - the request handlers ([chat], [get_conversation]).

    Python exceptions are an explicit result type, module globals and the
    storage back ends are an explicit [World] threaded through a small
    state-and-exception monad, and everything the process cannot decide
    itself (Bedrock, I/O failures, the clock, uuid4) is an oracle of the
    environment [Env]. *)

From Stdlib Require Import ZArith String Ascii List Lia.
From stdpp Require Import gmap strings list pretty.
From Equations Require Import Equations.
Import ListNotations.

(* ===================================================================== *)
(** ** Python runtime helpers *)
(* ===================================================================== *)

Module Py.

(** [s.split(sep)] for a one-character separator: never the empty list. *)
Fixpoint split (sep : ascii) (s : string) : list string :=
  match s with
  | EmptyString => [EmptyString]
  | String c s' =>
      if Ascii.eqb c sep then EmptyString :: split sep s'
      else match split sep s' with
           | [] => [String c EmptyString]
           | h :: t => String c h :: t
           end
  end.

(** [s.startswith("/")] *)
Definition startswith_slash (s : string) : bool :=
  match s with
  | String c _ => Ascii.eqb c "/"
  | EmptyString => false
  end.

(** [s.endswith("/")] *)
Fixpoint endswith_slash (s : string) : bool :=
  match s with
  | EmptyString => false
  | String c EmptyString => Ascii.eqb c "/"
  | String _ s' => endswith_slash s'
  end.

(** [os.path.join(a, b)] of posixpath, two components. *)
Definition os_path_join (a b : string) : string :=
  if startswith_slash b then b
  else if (String.eqb a "" || endswith_slash a)%bool then a +:+ b
  else a +:+ "/" +:+ b.

(** [l[-n:]] for a positive [n]: the last [n] elements, all of [l] when
    it is shorter. *)
Definition slice_last {A} (n : nat) (l : list A) : list A :=
  drop (length l - n) l.

(** [sep.join(l)] *)
Fixpoint join (sep : string) (l : list string) : string :=
  match l with
  | [] => ""
  | [x] => x
  | x :: rest => x +:+ sep +:+ join sep rest
  end.

(** [str(l)] of a list of strings, given [repr] on strings. *)
Definition str_list (repr : string -> string) (l : list string) : string :=
  "[" +:+ join ", " (map repr l) +:+ "]".

(** One lower-case hexadecimal digit. *)
Definition hex_digit (d : N) : ascii :=
  match N.to_nat d with
  | 0 => "0" | 1 => "1" | 2 => "2" | 3 => "3" | 4 => "4" | 5 => "5"
  | 6 => "6" | 7 => "7" | 8 => "8" | 9 => "9" | 10 => "a" | 11 => "b"
  | 12 => "c" | 13 => "d" | 14 => "e" | _ => "f"
  end%char.

(** ['%0<width>x' % n] for [n < 16 ^ width], most significant digit first. *)
Fixpoint hex_fixed (width : nat) (n : N) : string :=
  match width with
  | 0 => EmptyString
  | S k => String (hex_digit (N.shiftr n (4 * N.of_nat k) mod 16)) (hex_fixed k n)
  end.

(** [uuid.UUID(bytes=b, version=4).int]: the RFC 4122 variant and the
    version number are forced into the 128 random bits. *)
Definition uuid4_int (random : N) : N :=
  let i := N.ldiff random (N.shiftl 49152 48) in   (* int &= ~(0xc000 << 48) *)
  let i := N.lor i (N.shiftl 32768 48) in          (* int |= 0x8000 << 48 *)
  let i := N.ldiff i (N.shiftl 61440 64) in        (* int &= ~(0xf000 << 64) *)
  N.lor i (N.shiftl 4 76).                         (* int |= version << 76 *)

(** [str(u)] of a UUID with integer value [i]: 8-4-4-4-12 hex digits. *)
Definition str_uuid (i : N) : string :=
  let hex := hex_fixed 32 i in
  substring 0 8 hex +:+ "-" +:+ substring 8 4 hex +:+ "-" +:+
  substring 12 4 hex +:+ "-" +:+ substring 16 4 hex +:+ "-" +:+
  substring 20 12 hex.

End Py.

(* ===================================================================== *)
(** ** Data model *)
(* ===================================================================== *)

(** [class Message(BaseModel)]: the dictionaries kept in a conversation. *)
Record Message := mkMessage {
  role : string;
  content : string;
  timestamp : string
}.

(** One turn in the Bedrock converse format:
    [{"role": r, "content": [{"text": t}]}]. *)
Record ContentBlock := mkBlock { text : string }.

Record BedrockMessage := mkBedrockMessage {
  brole : string;
  bcontent : list ContentBlock
}.

(** *** A JSON codec for conversations

    [json.dumps(_, indent=2)] on a list of message dictionaries, and a
    reader for the documents it writes.  The service itself is stated
    over whatever codec the environment provides ([json_dumps] and
    [json_loads] of [Env]); this one instantiates it. *)

Module Json.

Definition dquote : ascii := ascii_of_nat 34.
Definition backslash : ascii := ascii_of_nat 92.
Definition newline : ascii := ascii_of_nat 10.

(** Escaping of one character under [ensure_ascii=True]. *)
Definition escape_char (c : ascii) : string :=
  let n := nat_of_ascii c in
  if n =? 34 then String backslash (String dquote EmptyString)
  else if n =? 92 then String backslash (String backslash EmptyString)
  else if n =? 10 then String backslash "n"
  else if n =? 13 then String backslash "r"
  else if n =? 9 then String backslash "t"
  else if n =? 8 then String backslash "b"
  else if n =? 12 then String backslash "f"
  else if (n <? 32) || (126 <? n) then
    String backslash ("u00" +:+ Py.hex_fixed 2 (N.of_nat n))
  else String c EmptyString.

Fixpoint escape (s : string) : string :=
  match s with
  | EmptyString => EmptyString
  | String c s' => escape_char c +:+ escape s'
  end.

Definition encode_string (s : string) : string :=
  String dquote (escape s +:+ String dquote EmptyString).

Definition encode_field (indent key value : string) : string :=
  indent +:+ encode_string key +:+ ": " +:+ encode_string value.

Definition encode_message (m : Message) : string :=
  "  {" +:+ String newline
    (encode_field "    " "role" (role m) +:+ "," +:+ String newline
    (encode_field "    " "content" (content m) +:+ "," +:+ String newline
    (encode_field "    " "timestamp" (timestamp m) +:+ String newline "  }"))).

(** Between two items: a comma and a line break. *)
Definition separator : string := "," +:+ String newline EmptyString.

Definition dumps (msgs : list Message) : string :=
  match msgs with
  | [] => "[]"
  | _ => "[" +:+ String newline
           (Py.join separator (map encode_message msgs) +:+ String newline "]")
  end.

(** Reading. *)

Definition is_ws (c : ascii) : bool :=
  let n := nat_of_ascii c in
  (n =? 32) || (n =? 10) || (n =? 13) || (n =? 9).

Fixpoint skip_ws (s : string) : string :=
  match s with
  | String c s' => if is_ws c then skip_ws s' else s
  | EmptyString => EmptyString
  end.

Definition expect (c : ascii) (s : string) : option string :=
  match skip_ws s with
  | String d s' => if Ascii.eqb c d then Some s' else None
  | EmptyString => None
  end.

Definition hex_value (c : ascii) : option N :=
  let n := nat_of_ascii c in
  if (48 <=? n) && (n <=? 57) then Some (N.of_nat (n - 48))
  else if (97 <=? n) && (n <=? 102) then Some (N.of_nat (n - 87))
  else if (65 <=? n) && (n <=? 70) then Some (N.of_nat (n - 55))
  else None.

(** [\uXXXX] for code points below 256. *)
Definition unicode_escape (h1 h2 h3 h4 : ascii) : option ascii :=
  a ← hex_value h1; b ← hex_value h2; c ← hex_value h3; d ← hex_value h4;
  if ((a =? 0) && (b =? 0))%N then Some (ascii_of_N (16 * c + d)) else None.

Definition simple_escape (e : ascii) : option ascii :=
  let n := nat_of_ascii e in
  if n =? 34 then Some dquote
  else if n =? 92 then Some backslash
  else if n =? 47 then Some "/"%char
  else if n =? 110 then Some newline
  else if n =? 114 then Some (ascii_of_nat 13)
  else if n =? 116 then Some (ascii_of_nat 9)
  else if n =? 98 then Some (ascii_of_nat 8)
  else if n =? 102 then Some (ascii_of_nat 12)
  else None.

(** The characters of a string literal after its opening quote, and the
    input left after the closing quote. *)
Fixpoint parse_chars (s : string) : option (string * string) :=
  match s with
  | EmptyString => None
  | String c rest =>
      if Ascii.eqb c dquote then Some (EmptyString, rest)
      else if Ascii.eqb c backslash then
        match rest with
        | String e rest1 =>
            if Ascii.eqb e "u" then
              match rest1 with
              | String h1 (String h2 (String h3 (String h4 rest2))) =>
                  ch ← unicode_escape h1 h2 h3 h4;
                  '(t, r) ← parse_chars rest2;
                  Some (String ch t, r)
              | _ => None
              end
            else
              ch ← simple_escape e;
              '(t, r) ← parse_chars rest1;
              Some (String ch t, r)
        | EmptyString => None
        end
      else
        '(t, r) ← parse_chars rest;
        Some (String c t, r)
  end.

Definition parse_string (s : string) : option (string * string) :=
  s1 ← expect dquote s; parse_chars s1.

Definition parse_field (key : string) (s : string) : option (string * string) :=
  '(k, s1) ← parse_string s;
  if String.eqb k key then s2 ← expect ":" s1; parse_string s2 else None.

Definition parse_message (s : string) : option (Message * string) :=
  s1 ← expect "{" s;
  '(r, s2) ← parse_field "role" s1;
  s3 ← expect "," s2;
  '(c, s4) ← parse_field "content" s3;
  s5 ← expect "," s4;
  '(t, s6) ← parse_field "timestamp" s5;
  s7 ← expect "}" s6;
  Some (mkMessage r c t, s7).

Fixpoint parse_elements (fuel : nat) (s : string) : option (list Message) :=
  match fuel with
  | 0 => None
  | S fuel' =>
      '(m, s1) ← parse_message s;
      match skip_ws s1 with
      | String c s2 =>
          if Ascii.eqb c "," then ms ← parse_elements fuel' s2; Some (m :: ms)
          else if Ascii.eqb c "]" then
            match skip_ws s2 with
            | EmptyString => Some [m]
            | _ => None
            end
          else None
      | EmptyString => None
      end
  end.

Definition loads (s : string) : list Message + string :=
  match expect "[" s with
  | Some s1 =>
      match expect "]" s1 with
      | Some s2 =>
          match skip_ws s2 with
          | EmptyString => inl []
          | _ => inr "Extra data"
          end
      | None =>
          match parse_elements (String.length s) s1 with
          | Some msgs => inl msgs
          | None => inr "Expecting value"
          end
      end
  | None => inr "Expecting value"
  end.

End Json.

Record ChatRequest := mkChatRequest {
  message : string;
  session_id : option string
}.

Record ChatResponse := mkChatResponse {
  response : string;
  resp_session_id : string
}.

Record ConversationView := mkConversationView {
  view_session_id : string;
  messages : list Message
}.

(** The dictionaries returned by the two status endpoints. *)
Record RootInfo := mkRootInfo {
  root_message : string;
  memory_enabled : bool;
  storage : string;
  ai_model : string
}.

Record HealthReport := mkHealthReport {
  status : string;
  use_s3 : bool;
  bedrock_model : string;
  bedrock_regions : list string;
  current_region : string
}.

(** What the outside world can raise: a botocore [ClientError] with its
    error code, or any other exception.  [failure_text] is [str(e)]. *)
Inductive Failure :=
| ClientFailure (code : string) (failure_text : string)
| OtherFailure (failure_text : string).

(** Exceptions travelling through the handlers. *)
Inductive Exn :=
| HTTPException (status_code : Z) (detail : string)
| ClientError (code : string) (error_text : string)
| OtherException (error_text : string).

Definition throw (f : Failure) : Exn :=
  match f with
  | ClientFailure code t => ClientError code t
  | OtherFailure t => OtherException t
  end.

(** [str(e)] *)
Definition exn_str (e : Exn) : string :=
  match e with
  | HTTPException c d => pretty c +:+ ": " +:+ d
  | ClientError _ t => t
  | OtherException t => t
  end.

(** Outcome of the body of the [try] in [call_bedrock]: [client.converse]
    followed by the extraction of the reply text. *)
Inductive ConverseOutcome :=
| Reply (reply_text : string)
| ConverseFails (f : Failure).

(** One request sent to Bedrock. *)
Record BedrockCall := mkBedrockCall {
  call_region : string;
  call_modelId : string;
  call_messages : list BedrockMessage
}.

(** Configuration read at import time, the library functions whose code is
    not part of the repository, and the oracles of the outside world. *)
Record Env := mkEnv {
  (* configuration *)
  BEDROCK_MODEL_ID : string;
  getenv_BEDROCK_REGIONS : option string;
  USE_S3 : bool;
  S3_BUCKET : string;
  MEMORY_DIR : string;
  (* [context.prompt()] *)
  prompt : string;
  (* library functions *)
  json_dumps : list Message -> string;           (* json.dumps(_, indent=2) *)
  json_loads : string -> list Message + string;  (* inr: str of the error *)
  py_repr : string -> string;                    (* repr of a str *)
  (* outside world, indexed by the number of earlier calls *)
  converse : nat -> BedrockCall -> ConverseOutcome;
  io_fault : nat -> option Failure;
  now_isoformat : nat -> string;
  urandom16 : nat -> N;                          (* os.urandom(16), big endian *)
  (* characters that had reached the file when a write fails *)
  partial_write : nat -> nat
}.

(** [BEDROCK_REGIONS = os.getenv("BEDROCK_REGIONS", "...").split(",")] *)
Definition BEDROCK_REGIONS (env : Env) : list string :=
  Py.split ","
    (match getenv_BEDROCK_REGIONS env with
     | Some v => v
     | None => "us-west-2,us-east-1,us-east-2"
     end).

(** The mutable state: the module global [current_region_index], the two
    storage back ends, and the history of calls to the outside world. *)
Record World := mkWorld {
  current_region_index : nat;
  files : gmap string string;               (* path ↦ file content *)
  objects : gmap (string * string) string;  (* (bucket, key) ↦ body *)
  bedrock_log : list BedrockCall;           (* oldest first *)
  io_ops : nat;
  clock_reads : nat;
  uuids_drawn : nat
}.

Definition set_current_region_index (i : nat) (w : World) : World :=
  mkWorld i (files w) (objects w) (bedrock_log w) (io_ops w)
          (clock_reads w) (uuids_drawn w).

Definition set_files (f : gmap string string) (w : World) : World :=
  mkWorld (current_region_index w) f (objects w) (bedrock_log w) (io_ops w)
          (clock_reads w) (uuids_drawn w).

Definition set_objects (o : gmap (string * string) string) (w : World) : World :=
  mkWorld (current_region_index w) (files w) o (bedrock_log w) (io_ops w)
          (clock_reads w) (uuids_drawn w).

Definition set_bedrock_log (l : list BedrockCall) (w : World) : World :=
  mkWorld (current_region_index w) (files w) (objects w) l (io_ops w)
          (clock_reads w) (uuids_drawn w).

Definition set_io_ops (n : nat) (w : World) : World :=
  mkWorld (current_region_index w) (files w) (objects w) (bedrock_log w) n
          (clock_reads w) (uuids_drawn w).

Definition set_clock_reads (n : nat) (w : World) : World :=
  mkWorld (current_region_index w) (files w) (objects w) (bedrock_log w)
          (io_ops w) n (uuids_drawn w).

Definition set_uuids_drawn (n : nat) (w : World) : World :=
  mkWorld (current_region_index w) (files w) (objects w) (bedrock_log w)
          (io_ops w) (clock_reads w) n.

(* ===================================================================== *)
(** ** State and exception monad *)
(* ===================================================================== *)

Inductive Res (A : Type) :=
| Ok (a : A)
| Raise (e : Exn).
Arguments Ok {A} a.
Arguments Raise {A} e.

Definition M (A : Type) : Type := World -> Res A * World.

Definition ret {A} (a : A) : M A := fun w => (Ok a, w).

Definition raise {A} (e : Exn) : M A := fun w => (Raise e, w).

Definition bind {A B} (m : M A) (k : A -> M B) : M B :=
  fun w =>
    match m w with
    | (Ok a, w') => k a w'
    | (Raise e, w') => (Raise e, w')
    end.

(** [try: m  except ... as e: h e] *)
Definition try_except {A} (m : M A) (h : Exn -> M A) : M A :=
  fun w =>
    match m w with
    | (Ok a, w') => (Ok a, w')
    | (Raise e, w') => h e w'
    end.

Notation "'let!' x ':=' m 'in' k" := (bind m (fun x => k))
  (at level 10, x name, m at level 100, k at level 200, only parsing).

(* ===================================================================== *)
(** ** The service *)
(* ===================================================================== *)

Section Server.

Variable env : Env.

(** *** Effects of the outside world *)

(** One storage operation: the environment decides whether it fails. *)
Definition io_step : M unit :=
  fun w =>
    let w' := set_io_ops (S (io_ops w)) w in
    match io_fault env (io_ops w) with
    | Some f => (Raise (throw f), w')
    | None => (Ok tt, w')
    end.

Definition NoSuchKey_text : string :=
  "An error occurred (NoSuchKey) when calling the GetObject operation: The specified key does not exist.".

(** [s3_client.get_object(Bucket=b, Key=k)["Body"].read().decode("utf-8")] *)
Definition s3_get_object (bucket key : string) : M string :=
  let! _ := io_step in
  fun w =>
    match objects w !! (bucket, key) with
    | Some body => (Ok body, w)
    | None => (Raise (ClientError "NoSuchKey" NoSuchKey_text), w)
    end.

(** [s3_client.put_object(Bucket=b, Key=k, Body=body, ...)] *)
Definition s3_put_object (bucket key body : string) : M unit :=
  let! _ := io_step in
  fun w => (Ok tt, set_objects (<[(bucket, key) := body]> (objects w)) w).

(** [os.path.exists(path)] *)
Definition os_path_exists (path : string) : M bool :=
  fun w => (Ok (bool_decide (is_Some (files w !! path))), w).

(** [os.makedirs(d, exist_ok=True)]: directories are not tracked, only
    whether the call fails. *)
Definition os_makedirs (d : string) : M unit := io_step.

(** [with open(path, "r") as f: f.read()] *)
Definition read_file (path : string) : M string :=
  let! _ := io_step in
  fun w =>
    match files w !! path with
    | Some c => (Ok c, w)
    | None =>
        (Raise (OtherException
                  ("[Errno 2] No such file or directory: " +:+ py_repr env path)), w)
    end.

(** [open(path, "w")]: when it succeeds the file exists and is empty,
    whatever it held before; when it fails the file is not touched. *)
Definition open_for_writing (path : string) : M unit :=
  let! _ := io_step in
  fun w => (Ok tt, set_files (<[path := EmptyString]> (files w)) w).

(** The text [c] streamed into the file opened at [path], up to the
    close at the end of the [with] block.  When the storage fails on the
    way, the characters that had got through stay in the file: a prefix
    of [c], whose length the environment decides. *)
Definition stream_to_file (path c : string) : M unit :=
  fun w =>
    let w' := set_io_ops (S (io_ops w)) w in
    match io_fault env (io_ops w) with
    | Some f =>
        (Raise (throw f),
         set_files (<[path := substring 0 (partial_write env (io_ops w)) c]> (files w)) w')
    | None => (Ok tt, set_files (<[path := c]> (files w)) w')
    end.

(** [with open(path, "w") as f: json.dump(messages, f, indent=2)], [c]
    being the text that [json.dump] produces. *)
Definition write_file (path c : string) : M unit :=
  let! _ := open_for_writing path in
  stream_to_file path c.

(** [json.loads(s)] / [json.load(f)] *)
Definition json_decode (s : string) : M (list Message) :=
  match json_loads env s with
  | inl msgs => ret msgs
  | inr err => raise (OtherException err)
  end.

(** [datetime.now().isoformat()] *)
Definition datetime_now_isoformat : M string :=
  fun w => (Ok (now_isoformat env (clock_reads w)),
            set_clock_reads (S (clock_reads w)) w).

(** [str(uuid.uuid4())] *)
Definition uuid4_str (n : nat) : string :=
  Py.str_uuid (Py.uuid4_int (urandom16 env n mod 2 ^ 128)).

Definition str_uuid4 : M string :=
  fun w => (Ok (uuid4_str (uuids_drawn w)),
            set_uuids_drawn (S (uuids_drawn w)) w).

(** *** Memory management functions *)

Definition get_memory_path (session_id : string) : string :=
  session_id +:+ ".json".

Definition load_conversation (session_id : string) : M (list Message) :=
  if USE_S3 env then
    try_except
      (let! body := s3_get_object (S3_BUCKET env) (get_memory_path session_id) in
       json_decode body)
      (fun e =>
         match e with
         | ClientError code _ =>
             if String.eqb code "NoSuchKey" then ret [] else raise e
         | _ => raise e
         end)
  else
    let file_path := Py.os_path_join (MEMORY_DIR env) (get_memory_path session_id) in
    let! found := os_path_exists file_path in
    if (found : bool) then
      let! body := read_file file_path in
      json_decode body
    else ret [].

Definition save_conversation (session_id : string) (msgs : list Message) : M unit :=
  if USE_S3 env then
    s3_put_object (S3_BUCKET env) (get_memory_path session_id) (json_dumps env msgs)
  else
    let! _ := os_makedirs (MEMORY_DIR env) in
    let file_path := Py.os_path_join (MEMORY_DIR env) (get_memory_path session_id) in
    write_file file_path (json_dumps env msgs).

(** *** Bedrock dispatch *)

(** The message list built at the top of [call_bedrock]: the system
    prompt as a first user turn, the last 20 stored messages, and the
    current user message. *)
Definition system_turn : BedrockMessage :=
  mkBedrockMessage "user" [mkBlock ("System: " +:+ prompt env)].

Definition history_turn (msg : Message) : BedrockMessage :=
  mkBedrockMessage (role msg) [mkBlock (content msg)].

Definition user_turn (user_message : string) : BedrockMessage :=
  mkBedrockMessage "user" [mkBlock user_message].

Definition build_messages (conversation : list Message) (user_message : string)
  : list BedrockMessage :=
  [system_turn]
    ++ map history_turn (Py.slice_last 20 conversation)
    ++ [user_turn user_message].

(** The [try] body: [client.converse(...)] on the client of [region] and
    the extraction of the reply text.  The call is recorded. *)
Definition client_converse (region : string) (msgs : list BedrockMessage)
  : World -> ConverseOutcome * World :=
  fun w =>
    let call := mkBedrockCall region (BEDROCK_MODEL_ID env) msgs in
    (converse env (length (bedrock_log w)) call,
     set_bedrock_log (bedrock_log w ++ [call]) w).

Definition invalid_format_detail : string :=
  "Invalid message format for Bedrock".

Definition bedrock_error_detail (e : Exn) : string :=
  "Bedrock error: " +:+ exn_str e.

Definition exhausted_detail : string :=
  "All Bedrock regions throttled. Please wait before trying again. Regions tried: "
    +:+ Py.str_list (py_repr env) (BEDROCK_REGIONS env).

(** [current_region_index = (current_region_index + 1) % len(BEDROCK_REGIONS)] *)
Definition advance_region (w : World) : World :=
  set_current_region_index
    ((current_region_index w + 1) mod length (BEDROCK_REGIONS env)) w.

(** The [while regions_tried < len(BEDROCK_REGIONS)] loop and the
    statements after it. *)
Equations? failover_loop (msgs : list BedrockMessage) (last_error : option Exn)
    (regions_tried : nat) (w : World) : Res string * World
  by wf (length (BEDROCK_REGIONS env) - regions_tried) lt :=
failover_loop msgs last_error regions_tried w
  with lt_dec regions_tried (length (BEDROCK_REGIONS env)) := {
  | right _ => (Raise (HTTPException 429 exhausted_detail), w)
  | left Hlt =>
      match BEDROCK_REGIONS env !! current_region_index w with
      | None => (Raise (OtherException "list index out of range"), w)
      | Some region =>
          match client_converse region msgs w with
          | (Reply reply, w1) => (Ok reply, w1)
          | (ConverseFails (ClientFailure code t), w1) =>
              let e := ClientError code t in
              if String.eqb code "ThrottlingException" then
                failover_loop msgs (Some e) (regions_tried + 1) (advance_region w1)
              else if String.eqb code "ValidationException" then
                (Raise (HTTPException 400 invalid_format_detail), w1)
              else if String.eqb code "AccessDeniedException" then
                failover_loop msgs (Some e) (regions_tried + 1) (advance_region w1)
              else
                (Raise (HTTPException 500 (bedrock_error_detail e)), w1)
          | (ConverseFails (OtherFailure t), w1) => (Raise (OtherException t), w1)
          end
      end }.
Proof. all: lia. Qed.

Definition call_bedrock (conversation : list Message) (user_message : string)
  : M string :=
  failover_loop (build_messages conversation user_message) None 0.

(** *** Status endpoints *)

Definition root : M RootInfo :=
  ret (mkRootInfo "AI Digital Twin API (Powered by AWS Bedrock)" true
         (if USE_S3 env then "S3" else "local") (BEDROCK_MODEL_ID env)).

(** [BEDROCK_REGIONS[current_region_index]] is evaluated while the
    dictionary is built. *)
Definition health_check : M HealthReport :=
  fun w =>
    match BEDROCK_REGIONS env !! current_region_index w with
    | Some region =>
        (Ok (mkHealthReport "healthy" (USE_S3 env) (BEDROCK_MODEL_ID env)
               (BEDROCK_REGIONS env) region), w)
    | None => (Raise (OtherException "list index out of range"), w)
    end.

(** *** Request handlers *)

(** [request.session_id or str(uuid.uuid4())] *)
Definition session_id_or_uuid4 (sid : option string) : M string :=
  match sid with
  | Some s => if String.eqb s "" then str_uuid4 else ret s
  | None => str_uuid4
  end.

Definition chat (request : ChatRequest) : M ChatResponse :=
  try_except
    (let! sid := session_id_or_uuid4 (session_id request) in
     let! conversation := load_conversation sid in
     let! assistant_response := call_bedrock conversation (message request) in
     let! t_user := datetime_now_isoformat in
     let conversation := conversation ++ [mkMessage "user" (message request) t_user] in
     let! t_assistant := datetime_now_isoformat in
     let conversation :=
       conversation ++ [mkMessage "assistant" assistant_response t_assistant] in
     let! _ := save_conversation sid conversation in
     ret (mkChatResponse assistant_response sid))
    (fun e =>
       match e with
       | HTTPException _ _ => raise e
       | _ => raise (HTTPException 500 (exn_str e))
       end).

Definition get_conversation (sid : string) : M ConversationView :=
  try_except
    (let! conversation := load_conversation sid in
     ret (mkConversationView sid conversation))
    (fun e => raise (HTTPException 500 (exn_str e))).

End Server.



(* ===================================================================== *)
(** ** Vocabulary for statements about one dispatch *)
(* ===================================================================== *)

Section DispatchVocabulary.

Variable env : Env.

Definition region_count : nat := length (BEDROCK_REGIONS env).

(** [BEDROCK_REGIONS[i]] for a valid index. *)
Definition region_at (i : nat) : string := nth i (BEDROCK_REGIONS env) "".

(** Index of the region of attempt number [j] (from 0) of a dispatch that
    starts with the cursor at [c]. *)
Definition attempt_index (c j : nat) : nat := (c + j) mod region_count.

(** The request of attempt [j]. *)
Definition attempt (msgs : list BedrockMessage) (c j : nat) : BedrockCall :=
  mkBedrockCall (region_at (attempt_index c j)) (BEDROCK_MODEL_ID env) msgs.

Definition attempts (msgs : list BedrockMessage) (c k : nat) : list BedrockCall :=
  map (attempt msgs c) (seq 0 k).

(** What Bedrock answers to attempt [j] of a dispatch started in [w]. *)
Definition outcome_at (msgs : list BedrockMessage) (w : World) (j : nat)
  : ConverseOutcome :=
  converse env (length (bedrock_log w) + j) (attempt msgs (current_region_index w) j).

Definition throttled (o : ConverseOutcome) : bool :=
  match o with
  | ConverseFails (ClientFailure code _) => String.eqb code "ThrottlingException"
  | _ => false
  end.

Definition access_denied (o : ConverseOutcome) : bool :=
  match o with
  | ConverseFails (ClientFailure code _) => String.eqb code "AccessDeniedException"
  | _ => false
  end.

Definition invalid_request (o : ConverseOutcome) : bool :=
  match o with
  | ConverseFails (ClientFailure code _) => String.eqb code "ValidationException"
  | _ => false
  end.

(** The outcomes after which the loop moves on to the next region. *)
Definition retryable (o : ConverseOutcome) : bool :=
  throttled o || access_denied o.

(** The first [k] attempts all end in a retryable failure. *)
Definition retries (msgs : list BedrockMessage) (w : World) (k : nat) : bool :=
  forallb (fun j => retryable (outcome_at msgs w j)) (seq 0 k).

(** The first [k] attempts are all throttled. *)
Definition throttles (msgs : list BedrockMessage) (w : World) (k : nat) : bool :=
  forallb (fun j => throttled (outcome_at msgs w j)) (seq 0 k).

(** How the dispatch ends on an outcome that is not retryable. *)
Definition settle (o : ConverseOutcome) : Res string :=
  match o with
  | Reply reply => Ok reply
  | ConverseFails (ClientFailure code t) =>
      if String.eqb code "ValidationException"
      then Raise (HTTPException 400 (invalid_format_detail))
      else Raise (HTTPException 500 (bedrock_error_detail (ClientError code t)))
  | ConverseFails (OtherFailure t) => Raise (OtherException t)
  end.

(** The world after [k] retryable failures: [k] requests logged, the
    cursor moved [k] places round the region list. *)
Definition after_retries (msgs : list BedrockMessage) (k : nat) (w : World) : World :=
  set_current_region_index (attempt_index (current_region_index w) k)
    (set_bedrock_log (bedrock_log w ++ attempts msgs (current_region_index w) k) w).

(** The world after [k] retryable failures and one more attempt that
    settled the dispatch: [k + 1] requests logged, the cursor on the
    region of the last attempt. *)
Definition after_stop (msgs : list BedrockMessage) (k : nat) (w : World) : World :=
  set_current_region_index (attempt_index (current_region_index w) k)
    (set_bedrock_log (bedrock_log w ++ attempts msgs (current_region_index w) (S k)) w).

(** [needle] occurs in [haystack]. *)
Definition mentions (haystack needle : string) : Prop :=
  exists before after, haystack = before +:+ needle +:+ after.



(** The document stored for a session, in the configured back end. *)
Definition stored (w : World) (sid : string) : option string :=
  if USE_S3 env then objects w !! (S3_BUCKET env, get_memory_path sid)
  else files w !! Py.os_path_join (MEMORY_DIR env) (get_memory_path sid).

(** The storage after [doc] was written for a session. *)
Definition files_with (w : World) (sid doc : string) : gmap string string :=
  if USE_S3 env then files w
  else <[Py.os_path_join (MEMORY_DIR env) (get_memory_path sid) := doc]> (files w).

Definition objects_with (w : World) (sid doc : string)
  : gmap (string * string) string :=
  if USE_S3 env then <[(S3_BUCKET env, get_memory_path sid) := doc]> (objects w)
  else objects w.

(** The local files after a write of [doc] for a session broke off with
    [k] characters in the file. *)
Definition torn_files (w : World) (sid doc : string) (k : nat)
  : gmap string string :=
  <[Py.os_path_join (MEMORY_DIR env) (get_memory_path sid) := substring 0 k doc]>
    (files w).

(** The [except] clauses of [chat]: an [HTTPException] is re-raised, any
    other exception becomes a 500 carrying its text. *)
Definition chat_except (e : Exn) : Exn :=
  match e with
  | HTTPException _ _ => e
  | _ => HTTPException 500 (exn_str e)
  end.

(** The two messages [chat] appends, with the clock at [n] reads. *)
Definition new_turn (user_message reply : string) (n : nat) : list Message :=
  [mkMessage "user" user_message (now_isoformat env n);
   mkMessage "assistant" reply (now_isoformat env (S n))].

(** The exceptions that can leave the dispatcher: an [HTTPException]
    with status 400, 429 or 500, or an exception that is not a
    [ClientError]. *)
Definition dispatcher_exception (e : Exn) : Prop :=
  match e with
  | HTTPException c _ => c = 400%Z \/ c = 429%Z \/ c = 500%Z
  | ClientError _ _ => False
  | OtherException _ => True
  end.

(** Nothing but the dispatcher's own state differs between two worlds. *)
Definition dispatch_only (w w' : World) : Prop :=
  files w' = files w /\ objects w' = objects w /\ io_ops w' = io_ops w /\
  clock_reads w' = clock_reads w /\ uuids_drawn w' = uuids_drawn w.

(** Nothing but the count of storage operations differs. *)
Definition io_count_only (w w' : World) : Prop :=
  files w' = files w /\ objects w' = objects w /\
  current_region_index w' = current_region_index w /\
  bedrock_log w' = bedrock_log w /\
  clock_reads w' = clock_reads w /\ uuids_drawn w' = uuids_drawn w.

End DispatchVocabulary.

(* ===================================================================== *)
(** ** Sample environments *)
(* ===================================================================== *)

Definition quoted_repr (s : string) : string := "'" +:+ s +:+ "'".

Definition throttling : ConverseOutcome :=
  ConverseFails (ClientFailure "ThrottlingException"
    "An error occurred (ThrottlingException) when calling the Converse operation: Too many requests").

Definition access_denial : ConverseOutcome :=
  ConverseFails (ClientFailure "AccessDeniedException"
    "An error occurred (AccessDeniedException) when calling the Converse operation: no access").

Definition validation_error : ConverseOutcome :=
  ConverseFails (ClientFailure "ValidationException"
    "An error occurred (ValidationException) when calling the Converse operation: bad turn order").

(** Bedrock throttles the first [k] requests it sees and answers the rest. *)
Definition throttle_first (k : nat) (n : nat) (call : BedrockCall) : ConverseOutcome :=
  if n <? k then throttling else Reply ("hello from " +:+ call_region call).

(** Bedrock throttles or denies every request. *)
Definition always_refuse (n : nat) (call : BedrockCall) : ConverseOutcome :=
  if Nat.even n then throttling else access_denial.

(** Bedrock throttles the first [k] requests and rejects the next as
    malformed. *)
Definition reject_after (k : nat) (n : nat) (call : BedrockCall) : ConverseOutcome :=
  if n <? k then throttling
  else if n =? k then validation_error
  else Reply "unreachable".

Definition model_error : ConverseOutcome :=
  ConverseFails (ClientFailure "ModelTimeoutException"
    "An error occurred (ModelTimeoutException) when calling the Converse operation: timed out").

Definition connection_error : ConverseOutcome :=
  ConverseFails (OtherFailure "Could not connect to the endpoint URL").

(** Bedrock throttles the first [k] requests and answers the next with
    [o]. *)
Definition outcome_after (k : nat) (o : ConverseOutcome) (n : nat)
    (call : BedrockCall) : ConverseOutcome :=
  if n <? k then throttling else o.

Definition no_faults (n : nat) : option Failure := None.

(** The storage operation number [k] fails, the others go through. *)
Definition fault_at (k : nat) (n : nat) : option Failure :=
  if n =? k
  then Some (ClientFailure "InternalError"
    "An error occurred (InternalError) when calling the PutObject operation: We encountered an internal error.")
  else None.

Definition sample_env (use_s3 : bool) (regions : string)
    (bedrock : nat -> BedrockCall -> ConverseOutcome)
    (faults : nat -> option Failure) : Env :=
  mkEnv "us.amazon.nova-lite-v1:0" (Some regions) use_s3 "twin-memory" "../memory"
        "You are a digital twin."
        Json.dumps Json.loads quoted_repr
        bedrock faults
        (fun n => "2025-01-01T00:00:0" +:+ pretty n)
        (fun n => N.of_nat n)
        (fun n => 0).

(** As [sample_env], with the local directory [dir]. *)
Definition local_env (dir : string) : Env :=
  mkEnv "us.amazon.nova-lite-v1:0" (Some "r1,r2") false "twin-memory" dir
        "You are a digital twin."
        Json.dumps Json.loads quoted_repr
        (throttle_first 0) no_faults
        (fun n => "2025-01-01T00:00:0" +:+ pretty n)
        (fun n => N.of_nat n)
        (fun n => 0).




(** A storage that holds a document the codec cannot read. *)
Definition corrupt_world : World :=
  mkWorld 0 ∅ {[ ("twin-memory", "s-1.json") := "{not json" ]} [] 0 0 0.

Definition fresh_world : World := mkWorld 0 ∅ ∅ [] 0 0 0.

Definition turn (q a : string) : list Message :=
  [mkMessage "user" q "2024-12-31T23:59:58"; mkMessage "assistant" a "2024-12-31T23:59:59"].


(* ===================================================================== *)
(** ** Basic facts *)
(* ===================================================================== *)

Lemma split_nonempty sep s : Py.split sep s <> [].
Proof.
  destruct s as [|c s]; simpl; [discriminate|].
  destruct (Ascii.eqb c sep); [discriminate|].
  destruct (Py.split sep s); discriminate.
Qed.

Lemma region_count_pos env : 0 < region_count env.
Proof.
  unfold region_count, BEDROCK_REGIONS.
  destruct (Py.split _ _) eqn:E; [|simpl; lia].
  exfalso. eapply split_nonempty, E.
Qed.

Lemma world_eta w :
  mkWorld (current_region_index w) (files w) (objects w) (bedrock_log w)
          (io_ops w) (clock_reads w) (uuids_drawn w) = w.
Proof. destruct w; reflexivity. Qed.

Section Dispatch.

Variable env : Env.

Local Abbreviation N := (region_count env).

Lemma region_lookup i : i < N -> BEDROCK_REGIONS env !! i = Some (region_at env i).
Proof.
  intros Hi. unfold region_at. rewrite nth_lookup.
  destruct (lookup_lt_is_Some_2 (BEDROCK_REGIONS env) i Hi) as [r Hr].
  rewrite Hr. reflexivity.
Qed.

(** The loop, one iteration unfolded. *)
Lemma failover_loop_eq msgs last_error regions_tried w :
  failover_loop env msgs last_error regions_tried w =
  if regions_tried <? N then
    match BEDROCK_REGIONS env !! current_region_index w with
    | None => (Raise (OtherException "list index out of range"), w)
    | Some region =>
        match client_converse env region msgs w with
        | (Reply reply, w1) => (Ok reply, w1)
        | (ConverseFails (ClientFailure code t), w1) =>
            let e := ClientError code t in
            if String.eqb code "ThrottlingException" then
              failover_loop env msgs (Some e) (regions_tried + 1) (advance_region env w1)
            else if String.eqb code "ValidationException" then
              (Raise (HTTPException 400 invalid_format_detail), w1)
            else if String.eqb code "AccessDeniedException" then
              failover_loop env msgs (Some e) (regions_tried + 1) (advance_region env w1)
            else
              (Raise (HTTPException 500 (bedrock_error_detail e)), w1)
        | (ConverseFails (OtherFailure t), w1) => (Raise (OtherException t), w1)
        end
    end
  else (Raise (HTTPException 429 (exhausted_detail env)), w).
Proof.
  simp failover_loop. unfold region_count.
  destruct (lt_dec regions_tried (length (BEDROCK_REGIONS env))) as [H|H]; simpl.
  - apply Nat.ltb_lt in H. rewrite H. reflexivity.
  - apply Nat.ltb_nlt in H. rewrite H. reflexivity.
Qed.

(** [last_error] is only printed: it does not influence the result. *)
Lemma last_error_irrelevant msgs e e' regions_tried w :
  failover_loop env msgs e regions_tried w = failover_loop env msgs e' regions_tried w.
Proof.
  rewrite (failover_loop_eq msgs e), (failover_loop_eq msgs e'). reflexivity.
Qed.

Lemma attempt_index_0 c : c < N -> attempt_index env c 0 = c.
Proof.
  intros Hc. unfold attempt_index. rewrite Nat.add_0_r. apply Nat.mod_small, Hc.
Qed.

Lemma attempt_index_lt c j : attempt_index env c j < N.
Proof.
  unfold attempt_index. apply Nat.mod_upper_bound.
  pose proof (region_count_pos env). lia.
Qed.

Lemma attempt_index_S c j :
  attempt_index env (attempt_index env c j) 1 = attempt_index env c (S j).
Proof.
  unfold attempt_index.
  rewrite Nat.Div0.add_mod_idemp_l. f_equal. lia.
Qed.

Lemma attempts_1 msgs c j :
  attempts env msgs (attempt_index env c j) 1 = [attempt env msgs c j].
Proof.
  unfold attempts, attempt; simpl.
  rewrite (attempt_index_0 _ (attempt_index_lt _ _)). reflexivity.
Qed.

Lemma outcome_after_retries msgs w k :
  outcome_at env msgs (after_retries env msgs k w) 0 = outcome_at env msgs w k.
Proof.
  unfold outcome_at, after_retries, attempts; simpl.
  rewrite length_app, length_map, length_seq, Nat.add_0_r.
  unfold attempt. rewrite (attempt_index_0 _ (attempt_index_lt _ _)).
  reflexivity.
Qed.

Lemma attempts_S msgs c k :
  attempts env msgs c (S k) = attempts env msgs c k ++ [attempt env msgs c k].
Proof. unfold attempts. rewrite seq_S, map_app. reflexivity. Qed.

Lemma retries_S msgs w k :
  retries env msgs w (S k) =
  retries env msgs w k && retryable (outcome_at env msgs w k).
Proof.
  unfold retries. rewrite seq_S, forallb_app. simpl.
  rewrite andb_true_r. reflexivity.
Qed.

Lemma after_retries_0 msgs w :
  current_region_index w < N -> after_retries env msgs 0 w = w.
Proof.
  intros Hc. unfold after_retries, attempts. simpl.
  rewrite attempt_index_0 by exact Hc. rewrite app_nil_r.
  destruct w; reflexivity.
Qed.

(** One iteration from a valid cursor. *)
Lemma loop_step msgs e regions_tried w :
  regions_tried < N ->
  current_region_index w < N ->
  failover_loop env msgs e regions_tried w =
  if retryable (outcome_at env msgs w 0)
  then failover_loop env msgs None (regions_tried + 1) (after_retries env msgs 1 w)
  else (settle (outcome_at env msgs w 0), after_stop env msgs 0 w).
Proof.
  intros Hrt Hc. rewrite failover_loop_eq.
  apply Nat.ltb_lt in Hrt. rewrite Hrt.
  rewrite (region_lookup _ Hc).
  unfold client_converse, outcome_at, after_retries, after_stop, attempts, attempt.
  simpl. rewrite Nat.add_0_r, (attempt_index_0 _ Hc).
  set (call := mkBedrockCall _ _ _).
  destruct (converse env (length (bedrock_log w)) call) as [reply|[code t|t]];
    simpl; [destruct w; reflexivity | | destruct w; reflexivity].
  unfold retryable; simpl.
  destruct (String.eqb_spec code "ThrottlingException") as [->|H1]; simpl.
  { apply last_error_irrelevant. }
  destruct (String.eqb_spec code "ValidationException") as [->|H2]; simpl.
  { destruct w; reflexivity. }
  destruct (String.eqb code "AccessDeniedException").
  { apply last_error_irrelevant. }
  destruct w; reflexivity.
Qed.

(** [k] retryable failures in a row take the loop [k] iterations on. *)
Lemma retry_run msgs regions_tried w k :
  current_region_index w < N ->
  regions_tried + k <= N ->
  retries env msgs w k = true ->
  failover_loop env msgs None regions_tried w =
  failover_loop env msgs None (regions_tried + k) (after_retries env msgs k w).
Proof.
  intros Hc. induction k as [|k IH]; intros Hk Hre.
  - rewrite Nat.add_0_r, after_retries_0 by exact Hc. reflexivity.
  - rewrite retries_S in Hre. apply andb_true_iff in Hre as [Hre Hlast].
    rewrite IH by (lia || exact Hre).
    rewrite loop_step; [| lia | apply attempt_index_lt].
    rewrite outcome_after_retries, Hlast.
    replace (regions_tried + k + 1) with (regions_tried + S k) by lia.
    f_equal.
    unfold after_retries; simpl.
    rewrite attempt_index_S, attempts_1, (attempts_S msgs _ k), <- app_assoc.
    reflexivity.
Qed.

(** The loop gives up once [regions_tried] has reached the region count. *)
Lemma loop_exhausted msgs e regions_tried w :
  N <= regions_tried ->
  failover_loop env msgs e regions_tried w =
  (Raise (HTTPException 429 (exhausted_detail env)), w).
Proof.
  intros H. rewrite failover_loop_eq.
  apply Nat.ltb_ge in H. rewrite H. reflexivity.
Qed.

(** [k] retryable failures and then an outcome that settles the call. *)
Lemma run_until_stop msgs w k :
  current_region_index w < N ->
  k < N ->
  retries env msgs w k = true ->
  retryable (outcome_at env msgs w k) = false ->
  failover_loop env msgs None 0 w =
  (settle (outcome_at env msgs w k), after_stop env msgs k w).
Proof.
  intros Hc Hk Hre Hstop.
  rewrite (retry_run msgs 0 w k Hc) by (lia || exact Hre).
  rewrite loop_step; [| simpl; lia | apply attempt_index_lt].
  rewrite outcome_after_retries, Hstop. f_equal.
  unfold after_stop, after_retries; simpl.
  rewrite (attempt_index_0 _ (attempt_index_lt _ _)), attempts_1,
    (attempts_S msgs _ k), <- app_assoc.
  reflexivity.
Qed.

(** [N] retryable failures exhaust the regions. *)
Lemma run_until_exhausted msgs w :
  current_region_index w < N ->
  retries env msgs w N = true ->
  failover_loop env msgs None 0 w =
  (Raise (HTTPException 429 (exhausted_detail env)), after_retries env msgs N w).
Proof.
  intros Hc Hre.
  rewrite (retry_run msgs 0 w N Hc) by (simpl; lia || exact Hre).
  apply loop_exhausted. simpl. lia.
Qed.

(** Either the first [n] outcomes are all retryable or there is a first
    one that is not. *)
Lemma first_stop msgs w n :
  retries env msgs w n = true \/
  exists k, k < n /\ retries env msgs w k = true
            /\ retryable (outcome_at env msgs w k) = false.
Proof.
  induction n as [|n [IH|(k & Hk & Hre & Hstop)]].
  - left. reflexivity.
  - rewrite retries_S, IH. simpl.
    destruct (retryable (outcome_at env msgs w n)) eqn:E; [left; reflexivity|].
    right. exists n. split; [lia|]. split; assumption.
  - right. exists k. split; [lia|]. split; assumption.
Qed.

(** Every dispatch from a valid cursor ends in one of two ways. *)
Lemma run_cases msgs w :
  current_region_index w < N ->
  (retries env msgs w N = true /\
   failover_loop env msgs None 0 w =
     (Raise (HTTPException 429 (exhausted_detail env)), after_retries env msgs N w))
  \/
  (exists k, k < N /\ retries env msgs w k = true
     /\ retryable (outcome_at env msgs w k) = false
     /\ failover_loop env msgs None 0 w =
          (settle (outcome_at env msgs w k), after_stop env msgs k w)).
Proof.
  intros Hc. destruct (first_stop msgs w N) as [Hall|(k & Hk & Hre & Hstop)].
  - left. split; [exact Hall|]. apply run_until_exhausted; assumption.
  - right. exists k. repeat split; try assumption.
    apply run_until_stop; assumption.
Qed.

(** The cursor stays a valid index of the region list across a dispatch. *)
Lemma cursor_stays_valid msgs w :
  current_region_index w < N ->
  current_region_index (snd (failover_loop env msgs None 0 w)) < N.
Proof.
  intros Hc.
  destruct (run_cases msgs w Hc) as [[_ Hrun]|(k & _ & _ & _ & Hrun)];
    rewrite Hrun; simpl; apply attempt_index_lt.
Qed.

(** What a dispatch leaves alone, from any cursor: storage and clocks are
    untouched, and every request it logs carries [msgs] and goes to a
    configured region. *)
Lemma failover_loop_frame msgs n :
  forall regions_tried e w,
    N - regions_tried = n ->
    dispatch_only w (snd (failover_loop env msgs e regions_tried w)) /\
    exists new,
      bedrock_log (snd (failover_loop env msgs e regions_tried w))
        = bedrock_log w ++ new /\
      Forall (fun call => call_messages call = msgs
                          /\ In (call_region call) (BEDROCK_REGIONS env)) new.
Proof.
  induction n as [n IH] using lt_wf_ind. intros rt e w Hn.
  rewrite failover_loop_eq.
  destruct (Nat.ltb_spec rt N) as [Hlt|Hge]; cycle 1.
  { split; [repeat split|]. exists []. rewrite app_nil_r. split; constructor. }
  destruct (BEDROCK_REGIONS env !! current_region_index w) as [region|] eqn:Hreg;
    cycle 1.
  { split; [repeat split|]. exists []. rewrite app_nil_r. split; constructor. }
  assert (In region (BEDROCK_REGIONS env)) as Hin.
  { apply list_elem_of_In. eapply list_elem_of_lookup_2, Hreg. }
  unfold client_converse.
  set (call := mkBedrockCall region (BEDROCK_MODEL_ID env) msgs).
  set (w1 := set_bedrock_log (bedrock_log w ++ [call]) w).
  assert (dispatch_only w w1 /\
          exists new, bedrock_log w1 = bedrock_log w ++ new /\
            Forall (fun call => call_messages call = msgs
                          /\ In (call_region call) (BEDROCK_REGIONS env)) new)
    as Hstop.
  { split; [repeat split|]. exists [call]. split; [reflexivity|].
    constructor; [split; [reflexivity|exact Hin]|constructor]. }
  assert (forall e',
    dispatch_only w (snd (failover_loop env msgs e' (rt + 1) (advance_region env w1))) /\
    exists new,
      bedrock_log (snd (failover_loop env msgs e' (rt + 1) (advance_region env w1)))
        = bedrock_log w ++ new /\
      Forall (fun call => call_messages call = msgs
                          /\ In (call_region call) (BEDROCK_REGIONS env)) new)
    as Hrec.
  { intros e'.
    destruct (IH (N - (rt + 1)) ltac:(lia) (rt + 1) e' (advance_region env w1) eq_refl)
      as [(F1 & F2 & F3 & F4 & F5) (new & Hlog & Hall)].
    split; [repeat split; assumption|].
    exists (call :: new). split.
    - rewrite Hlog. simpl. rewrite <- app_assoc. reflexivity.
    - constructor; [split; [reflexivity|exact Hin]|exact Hall]. }
  destruct (converse env (length (bedrock_log w)) call) as [reply|[code t|t]];
    [exact Hstop| |exact Hstop].
  cbv zeta.
  destruct (String.eqb code "ThrottlingException"); [apply Hrec|].
  destruct (String.eqb code "ValidationException"); [exact Hstop|].
  destruct (String.eqb code "AccessDeniedException"); [apply Hrec|exact Hstop].
Qed.

End Dispatch.

(* ===================================================================== *)
(** ** The conversation store *)
(* ===================================================================== *)

Section Store.

Variable env : Env.

Lemma io_step_eq w :
  io_step env w =
  (match io_fault env (io_ops w) with
   | Some f => Raise (throw f)
   | None => Ok tt
   end, set_io_ops (S (io_ops w)) w).
Proof. unfold io_step. destruct (io_fault env (io_ops w)); reflexivity. Qed.

(** A load changes nothing but the count of storage operations. *)
Lemma load_conversation_frame sid w :
  io_count_only w (snd (load_conversation env sid w)).
Proof.
  unfold load_conversation, s3_get_object, read_file,
    os_path_exists, json_decode, try_except, bind, ret, raise.
  destruct (USE_S3 env).
  - rewrite io_step_eq.
    destruct (io_fault env (io_ops w)) as [[code t|t]|]; simpl.
    + destruct (String.eqb code "NoSuchKey"); repeat split.
    + repeat split.
    + destruct (objects w !! _); simpl.
      * destruct (json_loads env s); repeat split.
      * repeat split.
  - destruct (bool_decide _); [|repeat split].
    rewrite io_step_eq.
    destruct (io_fault env (io_ops w)); simpl; [repeat split|].
    destruct (files w !! _); simpl; [|repeat split].
    destruct (json_loads env s); repeat split.
Qed.

(** A save that returns has written the whole document.  A save that
    raises, raises what the back end raised and leaves the bucket alone;
    the local files are as they were, unless the write had begun: then
    the file of the session holds a prefix of the document. *)
Lemma save_conversation_cases sid msgs w :
  (exists w', save_conversation env sid msgs w = (Ok tt, w')
     /\ files w' = files_with env w sid (json_dumps env msgs)
     /\ objects w' = objects_with env w sid (json_dumps env msgs)
     /\ current_region_index w' = current_region_index w
     /\ bedrock_log w' = bedrock_log w
     /\ clock_reads w' = clock_reads w
     /\ uuids_drawn w' = uuids_drawn w)
  \/
  (exists f w', save_conversation env sid msgs w = (Raise (throw f), w')
     /\ (files w' = files w \/
         USE_S3 env = false /\
         exists k, files w' = torn_files env w sid (json_dumps env msgs) k)
     /\ objects w' = objects w
     /\ current_region_index w' = current_region_index w
     /\ bedrock_log w' = bedrock_log w
     /\ clock_reads w' = clock_reads w
     /\ uuids_drawn w' = uuids_drawn w).
Proof.
  unfold save_conversation, files_with, objects_with, torn_files, s3_put_object,
    os_makedirs, write_file, open_for_writing, stream_to_file, bind.
  destruct (USE_S3 env).
  - rewrite io_step_eq.
    destruct (io_fault env (io_ops w)) as [f|].
    + right. exists f. eexists. split; [reflexivity|].
      split; [left; reflexivity|repeat split].
    + left. eexists. split; [reflexivity|repeat split].
  - rewrite io_step_eq.
    destruct (io_fault env (io_ops w)) as [f|].
    { right. exists f. eexists. split; [reflexivity|].
      split; [left; reflexivity|repeat split]. }
    rewrite io_step_eq. simpl.
    destruct (io_fault env (S (io_ops w))) as [f|].
    { right. exists f. eexists. split; [reflexivity|].
      split; [left; reflexivity|repeat split]. }
    simpl.
    destruct (io_fault env (S (S (io_ops w)))) as [f|].
    + right. exists f. eexists. split; [reflexivity|]. simpl.
      split; [|repeat split].
      right. split; [reflexivity|]. eexists. apply insert_insert_eq.
    + left. eexists. split; [reflexivity|]. simpl.
      split; [apply insert_insert_eq|repeat split].
Qed.

(** A load that finds the document, reads it without a storage failure
    and can decode it returns the decoded messages. *)
Lemma load_conversation_stored sid w doc msgs :
  stored env w sid = Some doc ->
  io_fault env (io_ops w) = None ->
  json_loads env doc = inl msgs ->
  load_conversation env sid w = (Ok msgs, set_io_ops (S (io_ops w)) w).
Proof.
  unfold stored, load_conversation, s3_get_object, read_file,
    os_path_exists, json_decode, try_except, bind, ret.
  intros Hdoc Hio Hjson.
  destruct (USE_S3 env).
  - rewrite io_step_eq, Hio. simpl. rewrite Hdoc. simpl. rewrite Hjson. reflexivity.
  - rewrite Hdoc. rewrite bool_decide_eq_true_2 by eauto.
    rewrite io_step_eq, Hio. simpl. rewrite Hdoc. simpl. rewrite Hjson.
    reflexivity.
Qed.

Lemma stored_after_save sid msgs w w' :
  save_conversation env sid msgs w = (Ok tt, w') ->
  stored env w' sid = Some (json_dumps env msgs).
Proof.
  intros Hsave.
  destruct (save_conversation_cases sid msgs w)
    as [(w1 & E & Hf & Ho & _)|(f & w1 & E & _)];
    rewrite E in Hsave; [|discriminate].
  injection Hsave as <-. unfold stored, files_with, objects_with in *.
  destruct (USE_S3 env).
  - rewrite Ho. apply lookup_insert_eq.
  - rewrite Hf. apply lookup_insert_eq.
Qed.

End Store.

(* ===================================================================== *)
(** ** The chat handler *)
(* ===================================================================== *)

Section Orchestrator.

Variable env : Env.

Lemma session_id_or_uuid4_eq o w :
  session_id_or_uuid4 env o w =
  match o with
  | Some s =>
      if String.eqb s ""
      then (Ok (uuid4_str env (uuids_drawn w)), set_uuids_drawn (S (uuids_drawn w)) w)
      else (Ok s, w)
  | None => (Ok (uuid4_str env (uuids_drawn w)), set_uuids_drawn (S (uuids_drawn w)) w)
  end.
Proof.
  unfold session_id_or_uuid4, str_uuid4, ret.
  destruct o as [s|]; [destruct (String.eqb s "")|]; reflexivity.
Qed.

(** [chat] as its four stages: session id, load, dispatch, save. *)
Lemma chat_eq request w :
  chat env request w =
  match session_id_or_uuid4 env (session_id request) w with
  | (Raise e, w0) => (Raise (chat_except e), w0)
  | (Ok sid, w0) =>
      match load_conversation env sid w0 with
      | (Raise e, w1) => (Raise (chat_except e), w1)
      | (Ok conversation, w1) =>
          match call_bedrock env conversation (message request) w1 with
          | (Raise e, w2) => (Raise (chat_except e), w2)
          | (Ok reply, w2) =>
              match save_conversation env sid
                      (conversation
                         ++ new_turn env (message request) reply (clock_reads w2))
                      (set_clock_reads (S (S (clock_reads w2))) w2) with
              | (Raise e, w3) => (Raise (chat_except e), w3)
              | (Ok _, w3) => (Ok (mkChatResponse reply sid), w3)
              end
          end
      end
  end.
Proof.
  unfold chat, try_except, bind.
  destruct (session_id_or_uuid4 env (session_id request) w) as [[sid|e] w0];
    [|destruct e; reflexivity].
  destruct (load_conversation env sid w0) as [[conversation|e] w1];
    [|destruct e; reflexivity].
  destruct (call_bedrock env conversation (message request) w1) as [[reply|e] w2];
    [|destruct e; reflexivity].
  unfold datetime_now_isoformat, new_turn. simpl.
  rewrite <- app_assoc. simpl.
  replace (set_clock_reads _ (set_clock_reads _ w2))
    with (set_clock_reads (S (S (clock_reads w2))) w2) by reflexivity.
  destruct (save_conversation env sid _ _) as [[[]|e] w3];
    [reflexivity|destruct e; reflexivity].
Qed.

End Orchestrator.

(* ===================================================================== *)
(** ** The JSON codec reads back what it writes *)
(* ===================================================================== *)

Lemma append_assoc (a b c : string) : (a +:+ b) +:+ c = a +:+ b +:+ c.
Proof.
  induction a as [|x a IH]; [reflexivity|].
  change (String x ((a +:+ b) +:+ c) = String x (a +:+ b +:+ c)).
  f_equal. exact IH.
Qed.

Lemma parse_chars_escape_char c X :
  Json.parse_chars (Json.escape_char c +:+ X) =
  '(t, r) ← Json.parse_chars X; Some (String c t, r).
Proof.
  destruct c as [[] [] [] [] [] [] [] []]; reflexivity.
Qed.

Lemma parse_chars_escape s rest :
  Json.parse_chars (Json.escape s +:+ String Json.dquote rest) = Some (s, rest).
Proof.
  induction s as [|c s IH]; [reflexivity|].
  change (Json.escape (String c s)) with (Json.escape_char c +:+ Json.escape s).
  rewrite append_assoc, parse_chars_escape_char, IH. reflexivity.
Qed.

Lemma skip_ws_app ws c Y :
  Json.skip_ws ws = "" -> Json.is_ws c = false ->
  Json.skip_ws (ws +:+ String c Y) = String c Y.
Proof.
  induction ws as [|d ws IH]; intros Hws Hc.
  - change (Json.skip_ws (String c Y) = String c Y).
    unfold Json.skip_ws. rewrite Hc. reflexivity.
  - change (Json.skip_ws (String d (ws +:+ String c Y)) = String c Y).
    change (Json.skip_ws (String d ws))
      with (if Json.is_ws d then Json.skip_ws ws else String d ws) in Hws.
    change (Json.skip_ws (String d (ws +:+ String c Y)))
      with (if Json.is_ws d then Json.skip_ws (ws +:+ String c Y)
            else String d (ws +:+ String c Y)).
    destruct (Json.is_ws d); [apply IH; assumption | discriminate].
Qed.

Lemma expect_app c ws Y :
  Json.skip_ws ws = "" -> Json.is_ws c = false ->
  Json.expect c (ws +:+ String c Y) = Some Y.
Proof.
  intros Hws Hc. unfold Json.expect. rewrite skip_ws_app by assumption.
  rewrite Ascii.eqb_refl. reflexivity.
Qed.

Lemma parse_string_encoded ws s rest :
  Json.skip_ws ws = "" ->
  Json.parse_string (ws +:+ Json.encode_string s +:+ rest) = Some (s, rest).
Proof.
  intros Hws. unfold Json.parse_string, Json.encode_string.
  change (String Json.dquote (Json.escape s +:+ String Json.dquote "") +:+ rest)
    with (String Json.dquote ((Json.escape s +:+ String Json.dquote "") +:+ rest)).
  rewrite expect_app by (assumption || reflexivity).
  rewrite append_assoc. apply parse_chars_escape.
Qed.

Lemma parse_field_encoded ws key v rest :
  Json.skip_ws ws = "" ->
  Json.parse_field key (Json.encode_field ws key v +:+ rest) = Some (v, rest).
Proof.
  intros Hws. unfold Json.parse_field, Json.encode_field.
  rewrite !append_assoc, parse_string_encoded by assumption.
  change (mbind ?f (Some ?x)) with (f x). cbv beta iota.
  rewrite String.eqb_refl.
  change (": " +:+ Json.encode_string v +:+ rest)
    with ("" +:+ String ":" (" " +:+ Json.encode_string v +:+ rest)).
  rewrite expect_app by reflexivity.
  apply parse_string_encoded. reflexivity.
Qed.

Lemma append_cons c (s t : string) : String c s +:+ t = String c (s +:+ t).
Proof. reflexivity. Qed.

Lemma append_nil (t : string) : "" +:+ t = t.
Proof. reflexivity. Qed.

Create Rewrite HintDb string_normal_form.
#[local] Hint Rewrite append_assoc append_cons append_nil : string_normal_form.

Lemma encode_message_app m rest :
  Json.encode_message m +:+ rest =
  "  " +:+ String "{"
    (Json.encode_field (String Json.newline "    ") "role" (role m) +:+
     "" +:+ String ","
    (Json.encode_field (String Json.newline "    ") "content" (content m) +:+
     "" +:+ String ","
    (Json.encode_field (String Json.newline "    ") "timestamp" (timestamp m) +:+
     String Json.newline "  " +:+ String "}" rest))).
Proof.
  unfold Json.encode_message, Json.encode_field.
  autorewrite with string_normal_form. reflexivity.
Qed.

Lemma parse_message_encoded m rest :
  Json.parse_message (String Json.newline (Json.encode_message m +:+ rest))
  = Some (m, rest).
Proof.
  rewrite encode_message_app. unfold Json.parse_message.
  change (String Json.newline ("  " +:+ String "{" ?Z))
    with (String Json.newline "  " +:+ String "{" Z).
  rewrite expect_app by reflexivity.
  change (mbind ?f (Some ?x)) with (f x). cbv beta.
  rewrite parse_field_encoded by reflexivity.
  change (mbind ?f (Some ?x)) with (f x). cbv beta iota.
  rewrite expect_app by reflexivity.
  change (mbind ?f (Some ?x)) with (f x). cbv beta.
  rewrite parse_field_encoded by reflexivity.
  change (mbind ?f (Some ?x)) with (f x). cbv beta iota.
  rewrite expect_app by reflexivity.
  change (mbind ?f (Some ?x)) with (f x). cbv beta.
  rewrite parse_field_encoded by reflexivity.
  change (mbind ?f (Some ?x)) with (f x). cbv beta iota.
  rewrite expect_app by reflexivity.
  destruct m; reflexivity.
Qed.

Lemma string_length_app (a b : string) :
  String.length (a +:+ b) = String.length a + String.length b.
Proof.
  induction a as [|c a IH]; [reflexivity|].
  rewrite append_cons. simpl. rewrite IH. reflexivity.
Qed.

Lemma join_encoded_length msgs :
  length msgs <= String.length (Py.join Json.separator (map Json.encode_message msgs)).
Proof.
  induction msgs as [|m msgs IH]; [simpl; lia|].
  destruct msgs as [|m' msgs].
  - simpl. unfold Json.encode_message. rewrite string_length_app. simpl. lia.
  - change (Py.join Json.separator (map Json.encode_message (m :: m' :: msgs)))
      with (Json.encode_message m +:+ Json.separator
              +:+ Py.join Json.separator (map Json.encode_message (m' :: msgs))).
    rewrite !string_length_app.
    unfold Json.encode_message at 1. rewrite string_length_app.
    simpl in *. lia.
Qed.

Lemma parse_elements_encoded msgs :
  forall m fuel,
    length msgs < fuel ->
    Json.parse_elements fuel
      (String Json.newline
         (Py.join Json.separator (map Json.encode_message (m :: msgs))
          +:+ String Json.newline "]"))
    = Some (m :: msgs).
Proof.
  induction msgs as [|m' msgs IH]; intros m fuel Hfuel.
  - destruct fuel as [|fuel]; [lia|].
    change (Py.join Json.separator (map Json.encode_message [m]))
      with (Json.encode_message m).
    unfold Json.parse_elements. rewrite parse_message_encoded. reflexivity.
  - destruct fuel as [|fuel]; [simpl in Hfuel; lia|].
    change (Py.join Json.separator (map Json.encode_message (m :: m' :: msgs)))
      with (Json.encode_message m +:+ Json.separator
              +:+ Py.join Json.separator (map Json.encode_message (m' :: msgs))).
    rewrite !append_assoc.
    change (Json.parse_elements (S fuel) ?s)
      with ('(x, s1) ← Json.parse_message s;
            match Json.skip_ws s1 with
            | String c s2 =>
                if Ascii.eqb c ","
                then ms ← Json.parse_elements fuel s2; Some (x :: ms)
                else if Ascii.eqb c "]"
                     then match Json.skip_ws s2 with
                          | EmptyString => Some [x]
                          | _ => None
                          end
                     else None
            | EmptyString => None
            end).
    rewrite parse_message_encoded.
    change (mbind ?f (Some ?x)) with (f x). cbv beta iota.
    unfold Json.separator. autorewrite with string_normal_form.
    change (Json.skip_ws (String "," ?s)) with (String "," s).
    cbv beta iota. change (Ascii.eqb "," ",") with true. cbv iota.
    rewrite IH by (simpl in Hfuel; lia). reflexivity.
Qed.

(** The codec reads back every conversation it writes. *)
Lemma json_loads_dumps msgs : Json.loads (Json.dumps msgs) = inl msgs.
Proof.
  destruct msgs as [|m msgs]; [reflexivity|].
  unfold Json.dumps, Json.loads.
  set (body := Py.join Json.separator (map Json.encode_message (m :: msgs))
                 +:+ String Json.newline "]").
  change ("[" +:+ String Json.newline body)
    with ("" +:+ String "[" (String Json.newline body)).
  rewrite expect_app by reflexivity.
  assert (Json.expect "]" (String Json.newline body) = None) as ->.
  { subst body. destruct msgs as [|m' msgs].
    - change (Py.join Json.separator (map Json.encode_message [m]))
        with (Json.encode_message m).
      rewrite encode_message_app. reflexivity.
    - change (Py.join Json.separator (map Json.encode_message (m :: m' :: msgs)))
        with (Json.encode_message m +:+ Json.separator
                +:+ Py.join Json.separator (map Json.encode_message (m' :: msgs))).
      rewrite !append_assoc, encode_message_app. reflexivity. }
  subst body. rewrite parse_elements_encoded; [reflexivity|].
  rewrite append_nil. simpl String.length. rewrite string_length_app.
  pose proof (join_encoded_length (m :: msgs)) as H. simpl in H. simpl. lia.
Qed.

(* ===================================================================== *)
(** ** Properties of the store *)
(* ===================================================================== *)

(** C8.  For a session with no stored record, [load_conversation] returns
    the empty list and raises nothing, under both back ends: the local
    one when the file does not exist, and S3 when the request itself goes
    through and the key is not in the bucket. *)
Theorem load_unknown_session_is_empty (env : Env) (sid : string) (w : World) :
  stored env w sid = None ->
  (USE_S3 env = true -> io_fault env (io_ops w) = None) ->
  fst (load_conversation env sid w) = Ok [] /\
  io_count_only w (snd (load_conversation env sid w)).
Proof.
  intros Hnone Hio. split; [|apply load_conversation_frame].
  unfold stored in Hnone.
  unfold load_conversation, s3_get_object, os_path_exists, try_except, bind, ret.
  destruct (USE_S3 env).
  - rewrite io_step_eq, (Hio eq_refl). simpl. rewrite Hnone. reflexivity.
  - rewrite Hnone. rewrite bool_decide_eq_false_2; [reflexivity|].
    intros [x Hx]. discriminate.
Qed.

Lemma load_unknown_session_is_empty_witness :
  fst (load_conversation (sample_env true "r1,r2" (throttle_first 0) no_faults)
         "never-seen" fresh_world) = Ok [] /\
  fst (load_conversation (sample_env false "r1,r2" (throttle_first 0) no_faults)
         "never-seen" fresh_world) = Ok [].
Proof.
  split.
  - apply (load_unknown_session_is_empty
             (sample_env true "r1,r2" (throttle_first 0) no_faults)
             "never-seen" fresh_world); [reflexivity | reflexivity].
  - apply (load_unknown_session_is_empty
             (sample_env false "r1,r2" (throttle_first 0) no_faults)
             "never-seen" fresh_world); [reflexivity | discriminate].
Defined.

(** C3.  Round trip: after [save_conversation] has stored a list of
    messages for a session, [load_conversation] for the same session
    returns exactly that list, in the same order, under both back ends.
    The assumptions are those of the environment: the save returned
    normally, the read that follows is not failed by the storage, and the
    JSON library reads back what it wrote for this list. *)
Theorem save_then_load (env : Env) (sid : string) (msgs : list Message)
    (w w1 : World) :
  json_loads env (json_dumps env msgs) = inl msgs ->
  save_conversation env sid msgs w = (Ok tt, w1) ->
  io_fault env (io_ops w1) = None ->
  fst (load_conversation env sid w1) = Ok msgs.
Proof.
  intros Hjson Hsave Hio.
  rewrite (load_conversation_stored env sid w1 (json_dumps env msgs) msgs);
    [reflexivity | | exact Hio | exact Hjson].
  eapply stored_after_save, Hsave.
Qed.

Lemma save_then_load_witness :
  fst (load_conversation (sample_env true "r1,r2" (throttle_first 0) no_faults) "s-1"
         (snd (save_conversation (sample_env true "r1,r2" (throttle_first 0) no_faults)
                 "s-1" (turn "hi" "hello") fresh_world)))
    = Ok (turn "hi" "hello") /\
  fst (load_conversation (sample_env false "r1,r2" (throttle_first 0) no_faults) "s-1"
         (snd (save_conversation (sample_env false "r1,r2" (throttle_first 0) no_faults)
                 "s-1" (turn "hi" "hello") fresh_world)))
    = Ok (turn "hi" "hello").
Proof.
  split.
  - apply (save_then_load (sample_env true "r1,r2" (throttle_first 0) no_faults)
             "s-1" (turn "hi" "hello") fresh_world);
      [apply json_loads_dumps | vm_compute; reflexivity | reflexivity].
  - apply (save_then_load (sample_env false "r1,r2" (throttle_first 0) no_faults)
             "s-1" (turn "hi" "hello") fresh_world);
      [apply json_loads_dumps | vm_compute; reflexivity | reflexivity].
Defined.

(* ===================================================================== *)
(** ** Properties of the dispatcher *)
(* ===================================================================== *)

Lemma slice_last_spec {A} (n : nat) (l : list A) :
  l = take (length l - n) l ++ Py.slice_last n l /\
  length (Py.slice_last n l) = Nat.min n (length l).
Proof.
  unfold Py.slice_last. split.
  - symmetry. apply take_drop.
  - rewrite length_drop. lia.
Qed.

(** C4.  Whatever the length of the stored conversation, every request a
    dispatch sends to Bedrock consists of the system turn (role [user],
    text ["System: "] followed by the prompt), then the last 20 stored
    messages at most (all of them when there are fewer), each with its
    own role and content and in the stored order, then a turn of role
    [user] that carries the new user message. *)
Theorem history_sent_is_last_20 (env : Env) (conversation : list Message)
    (user_message : string) (w : World) :
  exists older recent sent,
    conversation = older ++ recent /\
    length recent = Nat.min 20 (length conversation) /\
    length recent <= 20 /\
    build_messages env conversation user_message
      = [mkBedrockMessage "user" [mkBlock ("System: " +:+ prompt env)]]
          ++ map (fun msg => mkBedrockMessage (role msg) [mkBlock (content msg)]) recent
          ++ [mkBedrockMessage "user" [mkBlock user_message]] /\
    bedrock_log (snd (call_bedrock env conversation user_message w))
      = bedrock_log w ++ sent /\
    Forall (fun call =>
              call_messages call
              = [mkBedrockMessage "user" [mkBlock ("System: " +:+ prompt env)]]
                  ++ map (fun msg =>
                            mkBedrockMessage (role msg) [mkBlock (content msg)]) recent
                  ++ [mkBedrockMessage "user" [mkBlock user_message]])
           sent.
Proof.
  destruct (slice_last_spec 20 conversation) as [Hsplit Hlen].
  destruct (failover_loop_frame env (build_messages env conversation user_message)
              _ 0 None w eq_refl) as [_ (sent & Hlog & Hsent)].
  exists (take (length conversation - 20) conversation),
         (Py.slice_last 20 conversation), sent.
  repeat split; try assumption; [lia|].
  eapply Forall_impl; [exact Hsent|].
  intros call [Hmsgs _]. exact Hmsgs.
Qed.

Lemma mentions_refl s : mentions s s.
Proof.
  exists "", "". change (s = s +:+ "").
  induction s as [|c s IH]; [reflexivity|].
  change (String c s = String c (s +:+ "")). f_equal. exact IH.
Qed.

Lemma mentions_append before after s x :
  mentions s x -> mentions (before +:+ s +:+ after) x.
Proof.
  intros (b & a & ->). exists (before +:+ b), (a +:+ after).
  rewrite !append_assoc. reflexivity.
Qed.

Lemma join_mentions sep l x : In x l -> mentions (Py.join sep l) x.
Proof.
  induction l as [|y l IH]; intros Hin; [destruct Hin|].
  destruct l as [|z l].
  - destruct Hin as [->|[]]. apply mentions_refl.
  - change (Py.join sep (y :: z :: l)) with (y +:+ sep +:+ Py.join sep (z :: l)).
    destruct Hin as [->|Hin].
    + exists "", (sep +:+ Py.join sep (z :: l)). reflexivity.
    + destruct (IH Hin) as (b & a & ->).
      exists (y +:+ sep +:+ b), a. rewrite !append_assoc. reflexivity.
Qed.

(** The 429 detail contains the [repr] of every configured region. *)
Lemma exhausted_detail_mentions env r :
  In r (BEDROCK_REGIONS env) -> mentions (exhausted_detail env) (py_repr env r).
Proof.
  intros Hin. unfold exhausted_detail, Py.str_list.
  set (prefix := "All Bedrock regions throttled. Please wait before trying again. Regions tried: ").
  rewrite <- (append_assoc prefix "[").
  apply mentions_append, join_mentions, in_map, Hin.
Qed.

Lemma attempt_region_configured env msgs c j :
  In (call_region (attempt env msgs c j)) (BEDROCK_REGIONS env).
Proof.
  unfold attempt; simpl. unfold region_at. apply nth_In, attempt_index_lt.
Qed.

Lemma settle_not_429 o d : settle o <> Raise (HTTPException 429 d).
Proof.
  destruct o as [reply|[code t|t]]; simpl; try discriminate.
  destruct (String.eqb code "ValidationException"); discriminate.
Qed.

Lemma invalid_request_not_retryable o :
  invalid_request o = true ->
  retryable o = false /\ settle o = Raise (HTTPException 400 invalid_format_detail).
Proof.
  destruct o as [reply|[code t|t]]; simpl; try discriminate.
  intros H. apply String.eqb_eq in H. subst code. split; reflexivity.
Qed.

(** What the first two stages of [chat] leave of the dispatcher's view. *)
Lemma before_dispatch env o w sid w0 conversation w1 :
  session_id_or_uuid4 env o w = (Ok sid, w0) ->
  load_conversation env sid w0 = (Ok conversation, w1) ->
  current_region_index w1 = current_region_index w /\
  bedrock_log w1 = bedrock_log w /\
  files w1 = files w /\ objects w1 = objects w.
Proof.
  intros Hsid Hload.
  pose proof (load_conversation_frame env sid w0) as (F1 & F2 & F3 & F4 & _).
  rewrite Hload in *. simpl in *.
  rewrite session_id_or_uuid4_eq in Hsid.
  assert (current_region_index w0 = current_region_index w /\
          bedrock_log w0 = bedrock_log w /\
          files w0 = files w /\ objects w0 = objects w) as (G1 & G2 & G3 & G4).
  { destruct o as [s|]; [destruct (String.eqb s "")|];
      injection Hsid as _ <-; repeat split. }
  repeat split; congruence.
Qed.

Lemma outcome_at_ext env msgs w w' j :
  current_region_index w' = current_region_index w ->
  bedrock_log w' = bedrock_log w ->
  outcome_at env msgs w' j = outcome_at env msgs w j.
Proof. intros Hc Hl. unfold outcome_at. rewrite Hc, Hl. reflexivity. Qed.

Lemma retries_ext env msgs w w' k :
  current_region_index w' = current_region_index w ->
  bedrock_log w' = bedrock_log w ->
  retries env msgs w' k = retries env msgs w k.
Proof.
  intros Hc Hl. unfold retries, outcome_at. rewrite Hc, Hl. reflexivity.
Qed.

(** C6.  When an attempt of a dispatch fails with a
    [ValidationException], whatever number of regions has been tried
    before it and however many are left, the dispatch raises the 400
    "Invalid message format" at once: the failed request is the last one
    sent, the cursor stays on its region, and [chat] passes the 400 on
    unchanged. *)
Theorem validation_error_fails_at_once (env : Env) (request : ChatRequest)
    (w w0 w1 : World) (sid : string) (conversation : list Message) (k : nat) :
  let msgs := build_messages env conversation (message request) in
  session_id_or_uuid4 env (session_id request) w = (Ok sid, w0) ->
  load_conversation env sid w0 = (Ok conversation, w1) ->
  current_region_index w < region_count env ->
  k < region_count env ->
  retries env msgs w k = true ->
  invalid_request (outcome_at env msgs w k) = true ->
  call_bedrock env conversation (message request) w1
    = (Raise (HTTPException 400 "Invalid message format for Bedrock"),
       after_stop env msgs k w1) /\
  chat env request w
    = (Raise (HTTPException 400 "Invalid message format for Bedrock"),
       after_stop env msgs k w1) /\
  bedrock_log (after_stop env msgs k w1)
    = bedrock_log w ++ attempts env msgs (current_region_index w) (S k) /\
  current_region_index (after_stop env msgs k w1)
    = attempt_index env (current_region_index w) k.
Proof.
  intros msgs Hsid Hload Hc Hk Hre Hinv.
  destruct (before_dispatch env _ w sid w0 conversation w1 Hsid Hload)
    as (Ec & El & _ & _).
  rewrite <- (outcome_at_ext env msgs w w1 k Ec El) in Hinv.
  rewrite <- (retries_ext env msgs w w1 k Ec El) in Hre.
  destruct (invalid_request_not_retryable _ Hinv) as [Hstop Hsettle].
  assert (call_bedrock env conversation (message request) w1
          = (Raise (HTTPException 400 invalid_format_detail),
             after_stop env msgs k w1)) as Hcall.
  { unfold call_bedrock. fold msgs.
    rewrite (run_until_stop env msgs w1 k) by (congruence || assumption).
    rewrite Hsettle. reflexivity. }
  split; [exact Hcall|]. split.
  - rewrite chat_eq, Hsid, Hload, Hcall. reflexivity.
  - unfold after_stop; simpl. rewrite Ec, El. split; reflexivity.
Qed.

Lemma validation_error_fails_at_once_witness :
  chat (sample_env true "r1,r2,r3" (reject_after 1) no_faults)
       (mkChatRequest "hi" (Some "s-1")) fresh_world
  = (Raise (HTTPException 400 "Invalid message format for Bedrock"),
     after_stop (sample_env true "r1,r2,r3" (reject_after 1) no_faults)
       (build_messages (sample_env true "r1,r2,r3" (reject_after 1) no_faults) [] "hi")
       1 (set_io_ops 1 fresh_world)).
Proof.
  apply (validation_error_fails_at_once
           (sample_env true "r1,r2,r3" (reject_after 1) no_faults)
           (mkChatRequest "hi" (Some "s-1")) fresh_world fresh_world
           (set_io_ops 1 fresh_world) "s-1" [] 1);
    [reflexivity | reflexivity | vm_compute; lia | vm_compute; lia
    | reflexivity | reflexivity].
Defined.

(** C7.  A dispatch from a valid cursor ends in the 429 exactly when the
    loop has counted as many retryable failures (throttled or access
    denied) as there are configured regions, that is when every one of
    its attempts failed that way.  Then one request per configured region
    has been sent, and the detail of the 429 carries the [repr] of every
    region attempted. *)
Theorem exhaustion_is_429 (env : Env) (conversation : list Message)
    (user_message : string) (w : World) :
  let msgs := build_messages env conversation user_message in
  let n := region_count env in
  current_region_index w < n ->
  ((exists d w', call_bedrock env conversation user_message w
                 = (Raise (HTTPException 429 d), w'))
   <-> retries env msgs w n = true) /\
  (retries env msgs w n = true ->
   call_bedrock env conversation user_message w
     = (Raise (HTTPException 429 (exhausted_detail env)), after_retries env msgs n w) /\
   bedrock_log (after_retries env msgs n w)
     = bedrock_log w ++ attempts env msgs (current_region_index w) n /\
   length (attempts env msgs (current_region_index w) n) = n /\
   Forall (fun call =>
             In (call_region call) (BEDROCK_REGIONS env) /\
             mentions (exhausted_detail env) (py_repr env (call_region call)))
          (attempts env msgs (current_region_index w) n)).
Proof.
  intros msgs n Hc. unfold call_bedrock. fold msgs.
  assert (retries env msgs w n = true ->
          failover_loop env msgs None 0 w
          = (Raise (HTTPException 429 (exhausted_detail env)),
             after_retries env msgs n w)) as Hall.
  { intros Hre. apply run_until_exhausted; assumption. }
  split; [split|].
  - intros (d & w' & Hres).
    destruct (run_cases env msgs w Hc) as [[Hre _]|(k & Hk & Hre & Hstop & Hrun)];
      [exact Hre|].
    rewrite Hrun in Hres. injection Hres as Hres _.
    exfalso. eapply settle_not_429, Hres.
  - intros Hre. eexists _, _. apply Hall, Hre.
  - intros Hre. split; [apply Hall, Hre|]. split; [reflexivity|]. split.
    + unfold attempts. rewrite length_map, length_seq. reflexivity.
    + unfold attempts. apply Forall_forall. intros call Hin.
      apply list_elem_of_In, in_map_iff in Hin as (j & <- & _).
      split; [apply attempt_region_configured|].
      apply exhausted_detail_mentions, attempt_region_configured.
Qed.

Lemma exhaustion_is_429_witness :
  call_bedrock (sample_env true "r1,r2,r3" always_refuse no_faults) [] "hi"
    (set_current_region_index 2 fresh_world)
  = (Raise (HTTPException 429
       "All Bedrock regions throttled. Please wait before trying again. Regions tried: ['r1', 'r2', 'r3']"),
     after_retries (sample_env true "r1,r2,r3" always_refuse no_faults)
       (build_messages (sample_env true "r1,r2,r3" always_refuse no_faults) [] "hi")
       3 (set_current_region_index 2 fresh_world)).
Proof.
  apply (exhaustion_is_429 (sample_env true "r1,r2,r3" always_refuse no_faults)
           [] "hi" (set_current_region_index 2 fresh_world));
    [vm_compute; lia | reflexivity].
Defined.

Lemma attempt_index_inj env c j j' :
  j < region_count env -> j' < region_count env ->
  attempt_index env c j = attempt_index env c j' -> j = j'.
Proof.
  unfold attempt_index. set (n := region_count env). intros Hj Hj' H.
  pose proof (Nat.div_mod_eq (c + j) n) as E1.
  pose proof (Nat.div_mod_eq (c + j') n) as E2.
  rewrite H in E1.
  set (q1 := (c + j) / n) in *. set (q2 := (c + j') / n) in *.
  set (r := (c + j') mod n) in *.
  destruct (Nat.lt_trichotomy q1 q2) as [L|[L|L]]; nia.
Qed.

Lemma NoDup_map_on {A B} (f : A -> B) (l : list A) :
  (forall x y, In x l -> In y l -> f x = f y -> x = y) ->
  NoDup l -> NoDup (map f l).
Proof.
  intros Hinj Hnd. induction Hnd as [|x l Hx Hnd IH]; simpl; constructor.
  - intros Hin. apply list_elem_of_In, in_map_iff in Hin as (y & Hxy & Hy).
    apply Hx. apply list_elem_of_In.
    rewrite <- (Hinj y x); [exact Hy | right; exact Hy | left; reflexivity | exact Hxy].
  - apply IH. intros a b Ha Hb. apply Hinj; right; assumption.
Qed.

(** The list positions tried by the first [k] attempts are pairwise
    distinct as long as [k] does not exceed the region count. *)
Lemma attempt_indices_NoDup env c k :
  k <= region_count env -> NoDup (map (attempt_index env c) (seq 0 k)).
Proof.
  intros Hk. apply NoDup_map_on; [|apply NoDup_seq].
  intros j j' Hj Hj'. apply in_seq in Hj, Hj'.
  apply attempt_index_inj; lia.
Qed.

Lemma attempts_regions env msgs c k :
  map call_region (attempts env msgs c k)
  = map (region_at env) (map (attempt_index env c) (seq 0 k)).
Proof. unfold attempts. rewrite !map_map. reflexivity. Qed.

Lemma region_at_inj env i j :
  NoDup (BEDROCK_REGIONS env) ->
  i < region_count env -> j < region_count env ->
  region_at env i = region_at env j -> i = j.
Proof.
  intros Hnd Hi Hj H.
  eapply (NoDup_lookup (BEDROCK_REGIONS env) i j (region_at env i) Hnd).
  - apply region_lookup, Hi.
  - rewrite H. apply region_lookup, Hj.
Qed.

(** C10, as the code has it.  Within one dispatch from a valid cursor no
    position of the configured region list is attempted twice: the
    requests sent are those of attempts [0 .. k-1] for some [k] up to the
    region count, attempt [j] goes to position [(cursor + j) mod count],
    these positions are pairwise distinct, and the cursor ends [f]
    places further round the list, [f] being the number of retryable
    failures.  The region names attempted are pairwise distinct when the
    configured list holds no name twice. *)
Theorem positions_attempted_once (env : Env) (conversation : list Message)
    (user_message : string) (w : World) :
  let msgs := build_messages env conversation user_message in
  let c := current_region_index w in
  let w' := snd (call_bedrock env conversation user_message w) in
  c < region_count env ->
  exists k f,
    k <= region_count env /\ f <= k <= f + 1 /\
    retries env msgs w f = true /\
    current_region_index w' = attempt_index env c f /\
    bedrock_log w' = bedrock_log w ++ attempts env msgs c k /\
    map call_region (attempts env msgs c k)
      = map (region_at env) (map (attempt_index env c) (seq 0 k)) /\
    NoDup (map (attempt_index env c) (seq 0 k)) /\
    (NoDup (BEDROCK_REGIONS env) ->
     NoDup (map call_region (attempts env msgs c k))).
Proof.
  intros msgs c w' Hc.
  assert (forall k, k <= region_count env ->
            NoDup (BEDROCK_REGIONS env) ->
            NoDup (map call_region (attempts env msgs c k))) as Hnames.
  { intros k Hk Hnd. rewrite attempts_regions.
    apply NoDup_map_on; [|apply attempt_indices_NoDup, Hk].
    intros i j Hi Hj. apply in_map_iff in Hi as (a & <- & _).
    apply in_map_iff in Hj as (b & <- & _).
    apply region_at_inj; [exact Hnd | apply attempt_index_lt..]. }
  subst w'. unfold call_bedrock. fold msgs.
  destruct (run_cases env msgs w Hc) as [[Hre Hrun]|(k & Hk & Hre & Hstop & Hrun)];
    rewrite Hrun; simpl.
  - exists (region_count env), (region_count env).
    repeat split; try (lia || assumption || reflexivity).
    + apply attempts_regions.
    + apply attempt_indices_NoDup. lia.
    + apply Hnames. lia.
  - exists (S k), k. fold c.
    repeat split; try (lia || assumption || reflexivity).
    + apply attempts_regions.
    + apply attempt_indices_NoDup. lia.
    + apply Hnames. lia.
Qed.

Lemma positions_attempted_once_witness :
  NoDup (map call_region
           (bedrock_log (snd (call_bedrock
              (sample_env true "r1,r2,r3" (throttle_first 2) no_faults) [] "hi"
              (set_current_region_index 1 fresh_world))))).
Proof.
  destruct (positions_attempted_once
              (sample_env true "r1,r2,r3" (throttle_first 2) no_faults) [] "hi"
              (set_current_region_index 1 fresh_world))
    as (k & f & _ & _ & _ & _ & Hlog & _ & _ & Hnames);
    [vm_compute; lia|].
  rewrite Hlog. apply Hnames.
  apply (bool_decide_unpack _). vm_compute. reflexivity.
Defined.

(** C10 as stated fails when the configured list names a region twice:
    with [BEDROCK_REGIONS="r1,r1"] and Bedrock refusing every request,
    one dispatch sends two requests to [r1]. *)
Lemma region_attempted_twice :
  map call_region
    (bedrock_log (snd (call_bedrock
       (sample_env true "r1,r1" always_refuse no_faults) [] "hi" fresh_world)))
  = ["r1"; "r1"] /\
  ~ NoDup (map call_region
    (bedrock_log (snd (call_bedrock
       (sample_env true "r1,r1" always_refuse no_faults) [] "hi" fresh_world)))).
Proof.
  assert (map call_region
    (bedrock_log (snd (call_bedrock
       (sample_env true "r1,r1" always_refuse no_faults) [] "hi" fresh_world)))
  = ["r1"; "r1"]) as E by (vm_compute; reflexivity).
  split; [exact E|]. rewrite E. intros Hnd.
  apply NoDup_cons in Hnd as [Hnotin _]. apply Hnotin. left.
Qed.

Lemma throttles_retries env msgs w k :
  throttles env msgs w k = true -> retries env msgs w k = true.
Proof.
  unfold throttles, retries. rewrite !forallb_forall.
  intros H j Hj. unfold retryable. rewrite (H j Hj). reflexivity.
Qed.

(** A dispatch from a valid cursor sends its first request to the region
    under the cursor. *)
Lemma first_attempt env conversation user_message w :
  current_region_index w < region_count env ->
  exists rest,
    bedrock_log (snd (call_bedrock env conversation user_message w))
    = bedrock_log w
        ++ mkBedrockCall (region_at env (current_region_index w))
             (BEDROCK_MODEL_ID env) (build_messages env conversation user_message)
           :: rest.
Proof.
  intros Hc. unfold call_bedrock.
  set (msgs := build_messages env conversation user_message).
  assert (forall k, attempts env msgs (current_region_index w) (S k)
            = mkBedrockCall (region_at env (current_region_index w))
                (BEDROCK_MODEL_ID env) msgs
              :: map (attempt env msgs (current_region_index w)) (seq 1 k)) as Hhead.
  { intros k. unfold attempts; simpl. unfold attempt at 1.
    rewrite (attempt_index_0 env _ Hc). reflexivity. }
  destruct (run_cases env msgs w Hc) as [[_ Hrun]|(k & _ & _ & _ & Hrun)];
    rewrite Hrun; simpl.
  - pose proof (region_count_pos env) as Hpos.
    destruct (region_count env) as [|n] eqn:En; [lia|].
    rewrite Hhead. eexists. reflexivity.
  - rewrite Hhead. eexists. reflexivity.
Qed.

(** A save goes through when the storage does not fail its operations
    (one for S3; [makedirs], [open] and the write for the local files). *)
Lemma save_conversation_ok env sid msgs w :
  io_fault env (io_ops w) = None ->
  io_fault env (S (io_ops w)) = None ->
  io_fault env (S (S (io_ops w))) = None ->
  exists w', save_conversation env sid msgs w = (Ok tt, w')
    /\ files w' = files_with env w sid (json_dumps env msgs)
    /\ objects w' = objects_with env w sid (json_dumps env msgs)
    /\ current_region_index w' = current_region_index w
    /\ bedrock_log w' = bedrock_log w.
Proof.
  intros H0 H1 H2.
  destruct (save_conversation_cases env sid msgs w)
    as [(w' & E & Hf & Ho & Hc & Hl & _)|(f & w' & E & _)].
  - exists w'. repeat split; assumption.
  - exfalso. revert E.
    unfold save_conversation, s3_put_object, os_makedirs, write_file,
      open_for_writing, stream_to_file, bind.
    destruct (USE_S3 env); rewrite io_step_eq, H0; simpl;
      [discriminate|].
    rewrite io_step_eq. simpl. rewrite H1. simpl. rewrite H2. discriminate.
Qed.

(** C2.  With [n] configured regions and the cursor at 0, if the first
    [n - 1] attempts are throttled and attempt number [n] is answered,
    [chat] returns that answer, which comes from the last region of the
    list.  The success leaves the cursor where the last throttling put it:
    on position [n - 1], one past the position of the last throttled
    attempt, and the next dispatch sends its first request there. *)
Theorem failover_reaches_last_region (env : Env) (request : ChatRequest)
    (w w0 w1 : World) (sid : string) (conversation : list Message)
    (reply : string) :
  let msgs := build_messages env conversation (message request) in
  let n := region_count env in
  session_id_or_uuid4 env (session_id request) w = (Ok sid, w0) ->
  load_conversation env sid w0 = (Ok conversation, w1) ->
  (forall k, io_fault env (io_ops w1 + k) = None) ->
  current_region_index w = 0 ->
  throttles env msgs w (n - 1) = true ->
  outcome_at env msgs w (n - 1) = Reply reply ->
  exists w2 w3,
    call_bedrock env conversation (message request) w1 = (Ok reply, w2) /\
    chat env request w = (Ok (mkChatResponse reply sid), w3) /\
    bedrock_log w3 = bedrock_log w ++ attempts env msgs 0 n /\
    call_region (attempt env msgs 0 (n - 1)) = region_at env (n - 1) /\
    current_region_index w2 = n - 1 /\
    current_region_index w3 = n - 1 /\
    (2 <= n -> n - 1 = ((n - 2) + 1) mod n) /\
    (forall conversation' user_message',
       exists rest,
         bedrock_log (snd (call_bedrock env conversation' user_message' w3))
         = bedrock_log w3
             ++ mkBedrockCall (region_at env (n - 1)) (BEDROCK_MODEL_ID env)
                  (build_messages env conversation' user_message')
                :: rest).
Proof.
  intros msgs n Hsid Hload Hio Hc Hthr Hreply.
  pose proof (region_count_pos env) as Hpos. fold n in Hpos.
  destruct (before_dispatch env _ w sid w0 conversation w1 Hsid Hload)
    as (Ec & El & _ & _).
  assert (attempt_index env 0 (n - 1) = n - 1) as Hidx.
  { unfold attempt_index. fold n. apply Nat.mod_small. lia. }
  assert (call_bedrock env conversation (message request) w1
          = (Ok reply, after_stop env msgs (n - 1) w1)) as Hcall.
  { unfold call_bedrock. fold msgs.
    rewrite (run_until_stop env msgs w1 (n - 1)).
    - rewrite (outcome_at_ext env msgs w w1 _ Ec El), Hreply. reflexivity.
    - rewrite Ec, Hc. exact Hpos.
    - fold n. lia.
    - rewrite (retries_ext env msgs w w1 _ Ec El). apply throttles_retries, Hthr.
    - rewrite (outcome_at_ext env msgs w w1 _ Ec El), Hreply. reflexivity. }
  set (w2 := after_stop env msgs (n - 1) w1) in *.
  set (w2' := set_clock_reads (S (S (clock_reads w2))) w2).
  destruct (save_conversation_ok env sid
              (conversation ++ new_turn env (message request) reply (clock_reads w2))
              w2') as (w3 & Hsave & _ & _ & Hc3 & Hl3).
  { specialize (Hio 0). rewrite Nat.add_0_r in Hio. exact Hio. }
  { specialize (Hio 1). rewrite Nat.add_1_r in Hio. exact Hio. }
  { specialize (Hio 2). replace (io_ops w1 + 2) with (S (S (io_ops w1))) in Hio by lia.
    exact Hio. }
  assert (current_region_index w2 = n - 1) as Hc2.
  { unfold w2, after_stop; simpl. rewrite Ec, Hc. exact Hidx. }
  assert (current_region_index w3 = n - 1) as Hc3'.
  { rewrite Hc3. exact Hc2. }
  exists w2, w3. split; [exact Hcall|]. split.
  { rewrite chat_eq, Hsid, Hload, Hcall. fold w2'. rewrite Hsave. reflexivity. }
  split.
  { rewrite Hl3. unfold w2', w2, after_stop; simpl. rewrite Ec, El, Hc.
    replace (S (n - 1)) with n by lia. reflexivity. }
  split.
  { unfold attempt; simpl. rewrite Hidx. reflexivity. }
  split; [exact Hc2|]. split; [exact Hc3'|]. split.
  { intros Hn. replace (n - 2 + 1) with (n - 1) by lia.
    symmetry. apply Nat.mod_small. lia. }
  intros conversation' user_message'.
  destruct (first_attempt env conversation' user_message' w3) as (rest & Hrest).
  { rewrite Hc3'. fold n. lia. }
  exists rest. rewrite Hrest, Hc3'. reflexivity.
Qed.

Lemma failover_reaches_last_region_witness :
  exists w3,
    chat (sample_env false "r1,r2,r3" (throttle_first 2) no_faults)
         (mkChatRequest "hi" (Some "s-1")) fresh_world
    = (Ok (mkChatResponse "hello from r3" "s-1"), w3) /\
    current_region_index w3 = 2.
Proof.
  destruct (failover_reaches_last_region
              (sample_env false "r1,r2,r3" (throttle_first 2) no_faults)
              (mkChatRequest "hi" (Some "s-1")) fresh_world fresh_world fresh_world
              "s-1" [] "hello from r3")
    as (w2 & w3 & _ & Hchat & _ & _ & _ & Hc3 & _);
    [reflexivity | reflexivity | reflexivity | reflexivity
    | reflexivity | reflexivity |].
  exists w3. split; [exact Hchat | exact Hc3].
Defined.

(* ===================================================================== *)
(** ** Properties of the chat handler *)
(* ===================================================================== *)

Lemma call_bedrock_frame env conversation user_message w :
  dispatch_only w (snd (call_bedrock env conversation user_message w)).
Proof.
  unfold call_bedrock.
  apply (failover_loop_frame env _ _ 0 None w eq_refl).
Qed.

Lemma chat_except_throw f : chat_except (throw f) = HTTPException 500 (exn_str (throw f)).
Proof. destruct f; reflexivity. Qed.

(** C1, as the code has it.  When the inference call has succeeded and
    the save that follows fails with a storage error, [chat] does not
    return the reply: the error is caught by its [except Exception]
    clause and the request fails with a 500 whose detail is the text of
    the storage error. *)
Theorem save_failure_fails_chat (env : Env) (request : ChatRequest)
    (w w0 w1 w2 w3 : World) (sid : string) (conversation : list Message)
    (reply : string) (e : Exn) :
  session_id_or_uuid4 env (session_id request) w = (Ok sid, w0) ->
  load_conversation env sid w0 = (Ok conversation, w1) ->
  call_bedrock env conversation (message request) w1 = (Ok reply, w2) ->
  save_conversation env sid
    (conversation ++ new_turn env (message request) reply (clock_reads w2))
    (set_clock_reads (S (S (clock_reads w2))) w2) = (Raise e, w3) ->
  chat env request w = (Raise (HTTPException 500 (exn_str e)), w3) /\
  forall response, fst (chat env request w) <> Ok response.
Proof.
  intros Hsid Hload Hcall Hsave.
  destruct (save_conversation_cases env sid
              (conversation ++ new_turn env (message request) reply (clock_reads w2))
              (set_clock_reads (S (S (clock_reads w2))) w2))
    as [(w' & E & _)|(f & w' & E & _)];
    rewrite E in Hsave; [discriminate|].
  injection Hsave as <- <-.
  assert (chat env request w = (Raise (HTTPException 500 (exn_str (throw f))), w'))
    as Hchat.
  { rewrite chat_eq, Hsid, Hload, Hcall, E, chat_except_throw. reflexivity. }
  split; [exact Hchat|].
  intros response. rewrite Hchat. discriminate.
Qed.

Lemma save_failure_fails_chat_witness :
  fst (chat (sample_env true "r1,r2" (throttle_first 0) (fault_at 1))
         (mkChatRequest "hi" (Some "s-1")) fresh_world)
  = Raise (HTTPException 500
      "An error occurred (InternalError) when calling the PutObject operation: We encountered an internal error.").
Proof.
  set (env := sample_env true "r1,r2" (throttle_first 0) (fault_at 1)).
  destruct (save_failure_fails_chat env (mkChatRequest "hi" (Some "s-1"))
              fresh_world fresh_world
              (snd (load_conversation env "s-1" fresh_world))
              (snd (call_bedrock env [] "hi"
                      (snd (load_conversation env "s-1" fresh_world))))
              (snd (save_conversation env "s-1"
                      ([] ++ new_turn env "hi" "hello from r1" 0)
                      (set_clock_reads 2
                         (snd (call_bedrock env [] "hi"
                                 (snd (load_conversation env "s-1" fresh_world)))))))
              "s-1" [] "hello from r1"
              (ClientError "InternalError"
                 "An error occurred (InternalError) when calling the PutObject operation: We encountered an internal error."))
    as [Hchat _];
    [reflexivity | vm_compute; reflexivity | vm_compute; reflexivity
    | vm_compute; reflexivity |].
  rewrite Hchat. reflexivity.
Defined.

(** C1 as stated fails: Bedrock answers the only attempt, the
    [put_object] that follows fails, and [chat] raises a 500 instead of
    returning the reply. *)
Lemma reply_not_returned_when_save_fails :
  fst (call_bedrock (sample_env true "r1,r2" (throttle_first 0) (fault_at 1)) [] "hi"
         (snd (load_conversation
                 (sample_env true "r1,r2" (throttle_first 0) (fault_at 1))
                 "s-1" fresh_world)))
  = Ok "hello from r1" /\
  fst (chat (sample_env true "r1,r2" (throttle_first 0) (fault_at 1))
         (mkChatRequest "hi" (Some "s-1")) fresh_world)
  = Raise (HTTPException 500
      "An error occurred (InternalError) when calling the PutObject operation: We encountered an internal error.") /\
  ~ (exists resp,
       fst (chat (sample_env true "r1,r2" (throttle_first 0) (fault_at 1))
              (mkChatRequest "hi" (Some "s-1")) fresh_world) = Ok resp).
Proof.
  assert (fst (chat (sample_env true "r1,r2" (throttle_first 0) (fault_at 1))
         (mkChatRequest "hi" (Some "s-1")) fresh_world)
  = Raise (HTTPException 500
      "An error occurred (InternalError) when calling the PutObject operation: We encountered an internal error.")) as E
    by (vm_compute; reflexivity).
  split; [vm_compute; reflexivity|]. split; [exact E|].
  intros [resp H]. rewrite E in H. discriminate.
Qed.

Lemma session_id_or_uuid4_ok env o w :
  exists sid w0,
    session_id_or_uuid4 env o w = (Ok sid, w0) /\
    files w0 = files w /\ objects w0 = objects w /\
    (o = Some "" \/ o = None ->
     sid = uuid4_str env (uuids_drawn w) /\ uuids_drawn w0 = S (uuids_drawn w)).
Proof.
  rewrite session_id_or_uuid4_eq.
  destruct o as [s|]; [destruct (String.eqb_spec s "") as [->|Hs]|].
  - eexists _, _. repeat split.
  - eexists _, _. split; [reflexivity|]. repeat split;
      destruct H as [H|H]; congruence.
  - eexists _, _. repeat split.
Qed.

(** When [chat] raises, the bucket is as it was.  The local files are
    as they were too, unless the inference had succeeded and the write
    of the new document broke off: then the file of the session holds a
    prefix of that document. *)
Lemma chat_raise_frame env request w e w' :
  chat env request w = (Raise e, w') ->
  objects w' = objects w /\
  (files w' = files w \/
   USE_S3 env = false /\
   exists sid w0 conversation w1 reply w2 k,
     session_id_or_uuid4 env (session_id request) w = (Ok sid, w0) /\
     load_conversation env sid w0 = (Ok conversation, w1) /\
     call_bedrock env conversation (message request) w1 = (Ok reply, w2) /\
     files w'
     = torn_files env w sid
         (json_dumps env
            (conversation ++ new_turn env (message request) reply (clock_reads w2)))
         k).
Proof.
  rewrite chat_eq.
  destruct (session_id_or_uuid4_ok env (session_id request) w)
    as (sid & w0 & Hsid & Ef & Eo & _).
  rewrite Hsid.
  pose proof (load_conversation_frame env sid w0) as (Lf & Lo & _).
  destruct (load_conversation env sid w0) as [[conversation|x] w1] eqn:Hload;
    simpl in Lf, Lo.
  2:{ intros H. injection H as _ <-. split; [|left]; congruence. }
  pose proof (call_bedrock_frame env conversation (message request) w1)
    as (Df & Do & _).
  destruct (call_bedrock env conversation (message request) w1)
    as [[reply|x] w2] eqn:Hcall; simpl in Df, Do.
  2:{ intros H. injection H as _ <-. split; [|left]; congruence. }
  destruct (save_conversation_cases env sid
              (conversation ++ new_turn env (message request) reply (clock_reads w2))
              (set_clock_reads (S (S (clock_reads w2))) w2))
    as [(w3 & -> & _)|(f & w3 & -> & Sf & So & _)]; [discriminate|].
  intros H. injection H as _ <-. simpl in Sf, So.
  split; [congruence|].
  destruct Sf as [Sf|(Hlocal & k & Sf)]; [left; congruence|].
  right. split; [exact Hlocal|].
  exists sid, w0, conversation, w1, reply, w2, k.
  split; [first [exact Hsid | reflexivity]|].
  split; [first [exact Hload | reflexivity]|].
  split; [first [exact Hcall | reflexivity]|].
  rewrite Sf. unfold torn_files; simpl. congruence.
Qed.

(** When [chat] returns, the document of the session is the loaded
    conversation with the new turn, and it is the only change. *)
Lemma chat_ok_inv env request w resp w' :
  chat env request w = (Ok resp, w') ->
  exists w0 w1 conversation n,
    session_id_or_uuid4 env (session_id request) w
      = (Ok (resp_session_id resp), w0) /\
    load_conversation env (resp_session_id resp) w0 = (Ok conversation, w1) /\
    let doc := json_dumps env
                 (conversation
                    ++ [mkMessage "user" (message request) (now_isoformat env n);
                        mkMessage "assistant" (response resp)
                          (now_isoformat env (S n))]) in
    stored env w' (resp_session_id resp) = Some doc /\
    files w' = files_with env w (resp_session_id resp) doc /\
    objects w' = objects_with env w (resp_session_id resp) doc.
Proof.
  rewrite chat_eq.
  destruct (session_id_or_uuid4_ok env (session_id request) w)
    as (sid & w0 & Hsid & Ef & Eo & _).
  rewrite Hsid.
  pose proof (load_conversation_frame env sid w0) as (Lf & Lo & _).
  destruct (load_conversation env sid w0) as [[conversation|x] w1] eqn:Hload;
    simpl in Lf, Lo; [|discriminate].
  pose proof (call_bedrock_frame env conversation (message request) w1)
    as (Df & Do & _).
  destruct (call_bedrock env conversation (message request) w1)
    as [[reply|x] w2]; simpl in Df, Do; [|discriminate].
  destruct (save_conversation_cases env sid
              (conversation ++ new_turn env (message request) reply (clock_reads w2))
              (set_clock_reads (S (S (clock_reads w2))) w2))
    as [(w3 & Hsave & Sf & So & _)|(f & w3 & -> & _)]; [|discriminate].
  rewrite Hsave. intros H. injection H as <- <-. simpl.
  exists w0, w1, conversation, (clock_reads w2).
  split; [reflexivity|]. split; [exact Hload|].
  split; [eapply stored_after_save, Hsave|].
  rewrite Sf, So. unfold files_with, objects_with; simpl.
  rewrite Df, Do, Lf, Lo, Ef, Eo. split; reflexivity.
Qed.






Lemma hex_digit_not_separator d :
  Py.hex_digit d <> "/"%char /\ Py.hex_digit d <> "."%char.
Proof.
  unfold Py.hex_digit. generalize (N.to_nat d). intros n.
  do 15 (destruct n as [|n]; [split; discriminate|]).
  split; discriminate.
Qed.

(** A uuid4 string starts with a hexadecimal digit. *)
Lemma uuid4_str_head env n :
  exists d rest, uuid4_str env n = String (Py.hex_digit d) rest.
Proof.
  unfold uuid4_str, Py.str_uuid.
  set (i := Py.uuid4_int _).
  change (Py.hex_fixed 32 i)
    with (String (Py.hex_digit (N.shiftr i (4 * N.of_nat 31) mod 16))
                 (Py.hex_fixed 31 i)).
  set (h := Py.hex_fixed 31 i).
  eexists _, _. reflexivity.
Qed.

Lemma uuid4_str_nonempty env n : uuid4_str env n <> "".
Proof. destruct (uuid4_str_head env n) as (d & rest & ->). discriminate. Qed.

(** The document of a uuid4 session is not the document of the empty
    session id, in either back end. *)
Lemma uuid4_path_fresh env n :
  get_memory_path (uuid4_str env n) <> get_memory_path "" /\
  Py.os_path_join (MEMORY_DIR env) (get_memory_path (uuid4_str env n))
    <> Py.os_path_join (MEMORY_DIR env) (get_memory_path "").
Proof.
  destruct (uuid4_str_head env n) as (d & rest & ->).
  destruct (hex_digit_not_separator d) as [Hslash Hdot].
  assert (get_memory_path (String (Py.hex_digit d) rest) <> get_memory_path "")
    as Hkey.
  { unfold get_memory_path. simpl. intros H. injection H as H _. contradiction. }
  split; [exact Hkey|].
  unfold Py.os_path_join.
  assert (Py.startswith_slash (get_memory_path (String (Py.hex_digit d) rest)) = false)
    as ->.
  { unfold get_memory_path; simpl. apply Ascii.eqb_neq, Hslash. }
  change (Py.startswith_slash (get_memory_path "")) with false. cbv iota.
  destruct (_ || _)%bool; intros H.
  - apply String.app_inj in H. contradiction.
  - apply String.app_inj, String.app_inj in H. contradiction.
Qed.

(** C9.  An empty [session_id] is treated like a missing one: [chat]
    draws a uuid4.  The session id of the response is that uuid4 string,
    which is not empty; the conversation is stored under it, and the
    document of the empty session id is left as it was. *)
Theorem empty_session_id_gets_uuid (env : Env) (user_message : string)
    (w : World) :
  let fresh := uuid4_str env (uuids_drawn w) in
  chat env (mkChatRequest user_message (Some "")) w
    = chat env (mkChatRequest user_message None) w /\
  fresh <> "" /\
  (forall resp w',
     chat env (mkChatRequest user_message (Some "")) w = (Ok resp, w') ->
     resp_session_id resp = fresh /\
     uuids_drawn w' = S (uuids_drawn w) /\
     (exists conversation n,
        stored env w' fresh
        = Some (json_dumps env
                  (conversation
                     ++ [mkMessage "user" user_message (now_isoformat env n);
                         mkMessage "assistant" (response resp)
                           (now_isoformat env (S n))]))) /\
     stored env w' "" = stored env w "").
Proof.
  intros fresh. split; [|split].
  - rewrite !chat_eq. reflexivity.
  - apply uuid4_str_nonempty.
  - intros resp w' Hchat.
    destruct (chat_ok_inv env (mkChatRequest user_message (Some "")) w resp w' Hchat)
      as (w0 & w1 & conversation & n & Hsid & Hload & Hdoc & Hf & Ho).
    simpl in Hsid, Hdoc, Hf, Ho.
    unfold str_uuid4 in Hsid.
    injection Hsid as Hfresh Hw0. fold fresh in Hfresh.
    rewrite <- Hfresh in *.
    split; [reflexivity|]. split.
    + revert Hchat. rewrite chat_eq, session_id_or_uuid4_eq. simpl.
      fold fresh. rewrite Hw0, Hload.
      pose proof (load_conversation_frame env fresh w0) as (_ & _ & _ & _ & _ & Lu).
      rewrite Hload in Lu. simpl in Lu.
      pose proof (call_bedrock_frame env conversation user_message w1)
        as (_ & _ & _ & _ & Du).
      destruct (call_bedrock env conversation user_message w1) as [[reply|x] w2];
        simpl in Du; [|discriminate].
      destruct (save_conversation_cases env fresh
                  (conversation ++ new_turn env user_message reply (clock_reads w2))
                  (set_clock_reads (S (S (clock_reads w2))) w2))
        as [(w3 & -> & _ & _ & _ & _ & _ & Su)|(f & w3 & -> & _)]; [|discriminate].
      intros H. injection H as _ <-. simpl in Su.
      rewrite Su, Du, Lu, <- Hw0. reflexivity.
    + split; [exists conversation, n; exact Hdoc|].
      destruct (uuid4_path_fresh env (uuids_drawn w)) as [Hkey Hpath].
      fold fresh in Hkey, Hpath.
      unfold stored. rewrite Hf, Ho. unfold files_with, objects_with.
      destruct (USE_S3 env).
      * apply lookup_insert_ne. intros H. apply Hkey. exact (f_equal snd H).
      * apply lookup_insert_ne. exact Hpath.
Qed.

Lemma empty_session_id_gets_uuid_witness :
  resp_session_id (mkChatResponse "hello from r1" "00000000-0000-4000-8000-000000000000")
    = uuid4_str (sample_env true "r1,r2" (throttle_first 0) no_faults) 0 /\
  stored (sample_env true "r1,r2" (throttle_first 0) no_faults)
    (snd (chat (sample_env true "r1,r2" (throttle_first 0) no_faults)
            (mkChatRequest "hi" (Some "")) fresh_world)) ""
  = None.
Proof.
  destruct (empty_session_id_gets_uuid
              (sample_env true "r1,r2" (throttle_first 0) no_faults) "hi" fresh_world)
    as (_ & _ & H).
  destruct (H (mkChatResponse "hello from r1" "00000000-0000-4000-8000-000000000000")
              (snd (chat (sample_env true "r1,r2" (throttle_first 0) no_faults)
                      (mkChatRequest "hi" (Some "")) fresh_world)))
    as (Hsid & _ & _ & Hempty); [vm_compute; reflexivity|].
  split; [exact Hsid | exact Hempty].
Defined.

(* ===================================================================== *)
(** ** Further properties of the dispatcher *)
(* ===================================================================== *)

Lemma attempts_length env msgs c k : length (attempts env msgs c k) = k.
Proof. unfold attempts. rewrite length_map, length_seq. reflexivity. Qed.

(** X1.  First answer wins, from any valid cursor: after [k] retryable
    failures (fewer than there are regions) the answer of the next
    attempt is returned at once; [k + 1] requests have been sent and the
    cursor rests on the region that answered, [k] places round the list
    from where it started. *)
Theorem first_reply_wins (env : Env) (conversation : list Message)
    (user_message : string) (w : World) (k : nat) (reply : string) :
  let msgs := build_messages env conversation user_message in
  let w' := snd (call_bedrock env conversation user_message w) in
  current_region_index w < region_count env ->
  k < region_count env ->
  retries env msgs w k = true ->
  outcome_at env msgs w k = Reply reply ->
  fst (call_bedrock env conversation user_message w) = Ok reply /\
  current_region_index w' = (current_region_index w + k) mod region_count env /\
  bedrock_log w' = bedrock_log w ++ attempts env msgs (current_region_index w) (S k) /\
  length (bedrock_log w') = length (bedrock_log w) + S k /\
  dispatch_only w w'.
Proof.
  intros msgs w' Hc Hk Hre Hreply. subst w'. unfold call_bedrock. fold msgs.
  rewrite (run_until_stop env msgs w k Hc Hk Hre)
    by (rewrite Hreply; reflexivity).
  rewrite Hreply. simpl.
  repeat split.
  rewrite length_app, attempts_length. reflexivity.
Qed.

Lemma first_reply_wins_witness :
  fst (call_bedrock (sample_env true "r1,r2,r3" (throttle_first 1) no_faults) [] "hi"
         (set_current_region_index 2 fresh_world)) = Ok "hello from r1" /\
  current_region_index
    (snd (call_bedrock (sample_env true "r1,r2,r3" (throttle_first 1) no_faults) [] "hi"
            (set_current_region_index 2 fresh_world))) = 0.
Proof.
  destruct (first_reply_wins (sample_env true "r1,r2,r3" (throttle_first 1) no_faults)
              [] "hi" (set_current_region_index 2 fresh_world) 1 "hello from r1")
    as (Hres & Hcur & _);
    [vm_compute; lia | vm_compute; lia | reflexivity | reflexivity |].
  split; [exact Hres | rewrite Hcur; reflexivity].
Defined.

(** X2.  A [ClientError] whose code is none of [ThrottlingException],
    [ValidationException] and [AccessDeniedException] ends the dispatch
    at once with a 500 whose detail is ["Bedrock error: "] followed by
    the text of the error; no further region is tried. *)
Theorem other_client_error_is_500 (env : Env) (conversation : list Message)
    (user_message : string) (w : World) (k : nat) (code t : string) :
  let msgs := build_messages env conversation user_message in
  current_region_index w < region_count env ->
  k < region_count env ->
  retries env msgs w k = true ->
  outcome_at env msgs w k = ConverseFails (ClientFailure code t) ->
  code <> "ThrottlingException" ->
  code <> "ValidationException" ->
  code <> "AccessDeniedException" ->
  call_bedrock env conversation user_message w
    = (Raise (HTTPException 500 ("Bedrock error: " +:+ t)), after_stop env msgs k w) /\
  length (bedrock_log (after_stop env msgs k w)) = length (bedrock_log w) + S k.
Proof.
  intros msgs Hc Hk Hre Hout H1 H2 H3.
  apply String.eqb_neq in H1, H2, H3.
  unfold call_bedrock. fold msgs.
  rewrite (run_until_stop env msgs w k Hc Hk Hre).
  - rewrite Hout. simpl. rewrite H2. split; [reflexivity|].
    rewrite length_app, attempts_length. reflexivity.
  - rewrite Hout. unfold retryable; simpl. rewrite H1, H3. reflexivity.
Qed.

Lemma other_client_error_is_500_witness :
  fst (call_bedrock
         (sample_env true "r1,r2,r3" (outcome_after 1 model_error) no_faults) [] "hi"
         fresh_world)
  = Raise (HTTPException 500
      "Bedrock error: An error occurred (ModelTimeoutException) when calling the Converse operation: timed out").
Proof.
  destruct (other_client_error_is_500
              (sample_env true "r1,r2,r3" (outcome_after 1 model_error) no_faults)
              [] "hi" fresh_world 1 "ModelTimeoutException"
              "An error occurred (ModelTimeoutException) when calling the Converse operation: timed out")
    as [Hres _];
    [vm_compute; lia | vm_compute; lia | reflexivity | reflexivity
    | discriminate | discriminate | discriminate |].
  rewrite Hres. reflexivity.
Defined.

(** X3.  An exception of the Bedrock call that is not a [ClientError]
    is not handled by the dispatcher: it leaves [call_bedrock] as it is,
    no further region is tried, and [chat] turns it into a 500 whose
    detail is the text of the exception. *)
Theorem other_exception_becomes_500 (env : Env) (request : ChatRequest)
    (w w0 w1 : World) (sid : string) (conversation : list Message)
    (k : nat) (t : string) :
  let msgs := build_messages env conversation (message request) in
  session_id_or_uuid4 env (session_id request) w = (Ok sid, w0) ->
  load_conversation env sid w0 = (Ok conversation, w1) ->
  current_region_index w < region_count env ->
  k < region_count env ->
  retries env msgs w k = true ->
  outcome_at env msgs w k = ConverseFails (OtherFailure t) ->
  call_bedrock env conversation (message request) w1
    = (Raise (OtherException t), after_stop env msgs k w1) /\
  chat env request w = (Raise (HTTPException 500 t), after_stop env msgs k w1) /\
  length (bedrock_log (after_stop env msgs k w1)) = length (bedrock_log w) + S k.
Proof.
  intros msgs Hsid Hload Hc Hk Hre Hout.
  destruct (before_dispatch env _ w sid w0 conversation w1 Hsid Hload)
    as (Ec & El & _ & _).
  rewrite <- (outcome_at_ext env msgs w w1 k Ec El) in Hout.
  rewrite <- (retries_ext env msgs w w1 k Ec El) in Hre.
  assert (call_bedrock env conversation (message request) w1
          = (Raise (OtherException t), after_stop env msgs k w1)) as Hcall.
  { unfold call_bedrock. fold msgs.
    rewrite (run_until_stop env msgs w1 k) by
      (congruence || assumption || (rewrite Hout; reflexivity)).
    rewrite Hout. reflexivity. }
  split; [exact Hcall|]. split.
  - rewrite chat_eq, Hsid, Hload, Hcall. reflexivity.
  - unfold after_stop; simpl. rewrite length_app, attempts_length, El. reflexivity.
Qed.

Lemma other_exception_becomes_500_witness :
  fst (chat (sample_env true "r1,r2,r3" (outcome_after 1 connection_error) no_faults)
         (mkChatRequest "hi" (Some "s-1")) fresh_world)
  = Raise (HTTPException 500 "Could not connect to the endpoint URL").
Proof.
  destruct (other_exception_becomes_500
              (sample_env true "r1,r2,r3" (outcome_after 1 connection_error) no_faults)
              (mkChatRequest "hi" (Some "s-1")) fresh_world fresh_world
              (set_io_ops 1 fresh_world) "s-1" [] 1
              "Could not connect to the endpoint URL")
    as (_ & Hchat & _);
    [reflexivity | reflexivity | vm_compute; lia | vm_compute; lia
    | reflexivity | reflexivity |].
  rewrite Hchat. reflexivity.
Defined.

Lemma attempt_index_full_turn env c :
  c < region_count env -> attempt_index env c (region_count env) = c.
Proof.
  intros Hc. unfold attempt_index.
  replace (c + region_count env) with (c + 1 * region_count env) by lia.
  rewrite Nat.Div0.mod_add. apply Nat.mod_small, Hc.
Qed.

(** X4.  A dispatch that finds every region throttled or denied has
    moved the cursor once round the whole list: it ends on the position
    it started from, so the next dispatch begins with the same region. *)
Theorem exhaustion_returns_cursor (env : Env) (conversation : list Message)
    (user_message : string) (w : World) :
  let msgs := build_messages env conversation user_message in
  let w' := snd (call_bedrock env conversation user_message w) in
  current_region_index w < region_count env ->
  retries env msgs w (region_count env) = true ->
  current_region_index w' = current_region_index w /\
  forall conversation' user_message',
    exists rest,
      bedrock_log (snd (call_bedrock env conversation' user_message' w'))
      = bedrock_log w'
          ++ mkBedrockCall (region_at env (current_region_index w))
               (BEDROCK_MODEL_ID env) (build_messages env conversation' user_message')
             :: rest.
Proof.
  intros msgs w' Hc Hre.
  assert (current_region_index w' = current_region_index w) as Hcur.
  { subst w'. unfold call_bedrock. fold msgs.
    rewrite (run_until_exhausted env msgs w Hc Hre). simpl.
    apply attempt_index_full_turn, Hc. }
  split; [exact Hcur|].
  intros conversation' user_message'.
  destruct (first_attempt env conversation' user_message' w') as (rest & Hrest).
  { rewrite Hcur. exact Hc. }
  exists rest. rewrite Hrest, Hcur. reflexivity.
Qed.

Lemma exhaustion_returns_cursor_witness :
  current_region_index
    (snd (call_bedrock (sample_env true "r1,r2,r3" always_refuse no_faults) [] "hi"
            (set_current_region_index 1 fresh_world))) = 1.
Proof.
  apply (exhaustion_returns_cursor
           (sample_env true "r1,r2,r3" always_refuse no_faults) [] "hi"
           (set_current_region_index 1 fresh_world));
    [vm_compute; lia | reflexivity].
Defined.

(** X5.  Every dispatch from a valid cursor sends at least one request
    and at most one per configured region, and the first goes to the
    region under the cursor. *)
Theorem dispatch_request_count (env : Env) (conversation : list Message)
    (user_message : string) (w : World) :
  let w' := snd (call_bedrock env conversation user_message w) in
  current_region_index w < region_count env ->
  exists first rest,
    bedrock_log w' = bedrock_log w ++ first :: rest /\
    call_region first = region_at env (current_region_index w) /\
    length rest < region_count env.
Proof.
  intros w' Hc. subst w'. unfold call_bedrock.
  set (msgs := build_messages env conversation user_message).
  assert (forall k, attempts env msgs (current_region_index w) (S k)
            = attempt env msgs (current_region_index w) 0
              :: map (attempt env msgs (current_region_index w)) (seq 1 k)) as Hhead
    by reflexivity.
  assert (call_region (attempt env msgs (current_region_index w) 0)
          = region_at env (current_region_index w)) as Hfirst.
  { unfold attempt; simpl. rewrite (attempt_index_0 env _ Hc). reflexivity. }
  destruct (run_cases env msgs w Hc) as [[_ Hrun]|(k & Hk & _ & _ & Hrun)];
    rewrite Hrun; simpl.
  - pose proof (region_count_pos env) as Hpos.
    destruct (region_count env) as [|n] eqn:En; [lia|].
    rewrite Hhead. eexists _, _. split; [reflexivity|]. split; [exact Hfirst|].
    rewrite length_map, length_seq. lia.
  - rewrite Hhead. eexists _, _. split; [reflexivity|]. split; [exact Hfirst|].
    rewrite length_map, length_seq. exact Hk.
Qed.

Lemma dispatch_request_count_witness :
  exists first rest,
    bedrock_log (snd (call_bedrock
      (sample_env true "r1,r2,r3" (throttle_first 1) no_faults) [] "hi"
      (set_current_region_index 2 fresh_world)))
    = bedrock_log (set_current_region_index 2 fresh_world) ++ first :: rest /\
    call_region first = "r3" /\ length rest < 3.
Proof.
  apply (dispatch_request_count
           (sample_env true "r1,r2,r3" (throttle_first 1) no_faults) [] "hi"
           (set_current_region_index 2 fresh_world)).
  vm_compute; lia.
Defined.

(* ===================================================================== *)
(** ** Further properties of the handlers *)
(* ===================================================================== *)

(** What [load_conversation] raises is never an [HTTPException]. *)
Lemma load_conversation_raises env sid w e w' :
  load_conversation env sid w = (Raise e, w') -> exists f, e = throw f.
Proof.
  unfold load_conversation, s3_get_object, read_file,
    os_path_exists, json_decode, try_except, bind, ret, raise.
  destruct (USE_S3 env).
  - rewrite io_step_eq.
    destruct (io_fault env (io_ops w)) as [[code t|t]|]; simpl.
    + destruct (String.eqb code "NoSuchKey"); [discriminate|].
      intros H. injection H as <- _. exists (ClientFailure code t). reflexivity.
    + intros H. injection H as <- _. exists (OtherFailure t). reflexivity.
    + destruct (objects w !! _); simpl; [|discriminate].
      destruct (json_loads env s) as [msgs|err]; [discriminate|].
      intros H. injection H as <- _. exists (OtherFailure err). reflexivity.
  - destruct (bool_decide _); [|discriminate].
    rewrite io_step_eq.
    destruct (io_fault env (io_ops w)) as [f|]; simpl.
    + intros H. injection H as <- _. exists f. reflexivity.
    + destruct (files w !! _); simpl.
      * destruct (json_loads env s) as [msgs|err]; [discriminate|].
        intros H. injection H as <- _. exists (OtherFailure err). reflexivity.
      * intros H. injection H as <- _. eexists (OtherFailure _). reflexivity.
Qed.

Lemma failover_loop_raises env msgs n :
  forall regions_tried last w e w',
    region_count env - regions_tried = n ->
    failover_loop env msgs last regions_tried w = (Raise e, w') ->
    dispatcher_exception e.
Proof.
  induction n as [n IH] using lt_wf_ind. intros rt last w e w' Hn.
  rewrite failover_loop_eq.
  destruct (Nat.ltb_spec rt (region_count env)) as [Hlt|Hge]; cycle 1.
  { intros H. injection H as <- _. simpl. tauto. }
  destruct (BEDROCK_REGIONS env !! current_region_index w) as [region|];
    [|intros H; injection H as <- _; exact I].
  destruct (client_converse env region msgs w) as [[reply|[code t|t]] w1];
    [discriminate| |intros H; injection H as <- _; exact I].
  cbv zeta.
  destruct (String.eqb code "ThrottlingException");
    [apply (IH (region_count env - (rt + 1))); lia|].
  destruct (String.eqb code "ValidationException");
    [intros H; injection H as <- _; simpl; tauto|].
  destruct (String.eqb code "AccessDeniedException");
    [apply (IH (region_count env - (rt + 1))); lia|].
  intros H. injection H as <- _. simpl. tauto.
Qed.

(** X6.  Whatever goes wrong, [chat] raises an [HTTPException], and its
    status is 400, 429 or 500. *)
Theorem chat_raises_400_429_500 (env : Env) (request : ChatRequest)
    (w w' : World) (e : Exn) :
  chat env request w = (Raise e, w') ->
  exists c d, e = HTTPException c d /\ (c = 400 \/ c = 429 \/ c = 500)%Z.
Proof.
  rewrite chat_eq.
  destruct (session_id_or_uuid4_ok env (session_id request) w)
    as (sid & w0 & -> & _).
  destruct (load_conversation env sid w0) as [[conversation|x] w1] eqn:Hload.
  2:{ destruct (load_conversation_raises env sid w0 x w1 Hload) as [f ->].
      rewrite chat_except_throw. intros H. injection H as <- _.
      eexists _, _. split; [reflexivity|]. tauto. }
  destruct (call_bedrock env conversation (message request) w1)
    as [[reply|x] w2] eqn:Hcall.
  2:{ unfold call_bedrock in Hcall.
      pose proof (failover_loop_raises env _ _ 0 None w1 x w2 eq_refl Hcall) as Hx.
      intros H. injection H as <- _.
      destruct x as [c d| |t]; simpl in *; [|contradiction|].
      - exists c, d. split; [reflexivity|exact Hx].
      - eexists _, _. split; [reflexivity|]. tauto. }
  destruct (save_conversation_cases env sid
              (conversation ++ new_turn env (message request) reply (clock_reads w2))
              (set_clock_reads (S (S (clock_reads w2))) w2))
    as [(w3 & -> & _)|(f & w3 & -> & _)]; [discriminate|].
  rewrite chat_except_throw. intros H. injection H as <- _.
  eexists _, _. split; [reflexivity|]. tauto.
Qed.

Lemma chat_raises_400_429_500_witness :
  exists c d,
    HTTPException 429
      (exhausted_detail (sample_env true "r1,r2" always_refuse no_faults))
    = HTTPException c d /\ (c = 400 \/ c = 429 \/ c = 500)%Z.
Proof.
  apply (chat_raises_400_429_500 (sample_env true "r1,r2" always_refuse no_faults)
           (mkChatRequest "hi" (Some "s-1")) fresh_world
           (snd (chat (sample_env true "r1,r2" always_refuse no_faults)
                   (mkChatRequest "hi" (Some "s-1")) fresh_world))).
  vm_compute. reflexivity.
Defined.

(** X7.  The cursor stays a valid index of the region list: a [chat]
    or a [get_conversation] that starts with a valid cursor ends with
    one. *)
Theorem cursor_valid_after_request (env : Env) (request : ChatRequest)
    (sid : string) (w : World) :
  current_region_index w < region_count env ->
  current_region_index (snd (chat env request w)) < region_count env /\
  current_region_index (snd (get_conversation env sid w)) < region_count env.
Proof.
  intros Hc. split.
  - rewrite chat_eq.
    destruct (session_id_or_uuid4_ok env (session_id request) w)
      as (s & w0 & Hsid & _).
    rewrite Hsid.
    destruct (load_conversation env s w0) as [[conversation|x] w1] eqn:Hload.
    2:{ pose proof (load_conversation_frame env s w0) as (_ & _ & Lc & _).
        rewrite Hload in Lc. simpl in *. rewrite Lc.
        rewrite session_id_or_uuid4_eq in Hsid.
        destruct (session_id request) as [x0|]; [destruct (String.eqb x0 "")|];
          injection Hsid as _ <-; exact Hc. }
    destruct (before_dispatch env _ w s w0 conversation w1 Hsid Hload)
      as (Ec & _).
    pose proof (cursor_stays_valid env
                  (build_messages env conversation (message request)) w1) as Hd.
    rewrite Ec in Hd. specialize (Hd Hc).
    fold (call_bedrock env conversation (message request)) in Hd.
    destruct (call_bedrock env conversation (message request) w1)
      as [[reply|x] w2]; simpl in Hd; [|exact Hd].
    destruct (save_conversation_cases env s
                (conversation ++ new_turn env (message request) reply (clock_reads w2))
                (set_clock_reads (S (S (clock_reads w2))) w2))
      as [(w3 & -> & _ & _ & Sc & _)|(f & w3 & -> & _ & _ & Sc & _)];
      simpl in *; rewrite Sc; exact Hd.
  - unfold get_conversation, try_except, bind, ret, raise.
    pose proof (load_conversation_frame env sid w) as (_ & _ & Lc & _).
    destruct (load_conversation env sid w) as [[conversation|x] w1];
      simpl in *; rewrite Lc; exact Hc.
Qed.

Lemma cursor_valid_after_request_witness :
  current_region_index
    (snd (chat (sample_env true "r1,r2,r3" (throttle_first 5) no_faults)
            (mkChatRequest "hi" None) (set_current_region_index 2 fresh_world)))
  < region_count (sample_env true "r1,r2,r3" (throttle_first 5) no_faults).
Proof.
  apply (cursor_valid_after_request
           (sample_env true "r1,r2,r3" (throttle_first 5) no_faults)
           (mkChatRequest "hi" None) "s-1" (set_current_region_index 2 fresh_world)).
  vm_compute; lia.
Defined.

(** X8.  When the load of the conversation fails, [chat] fails with a
    500 carrying the text of the storage error before any inference is
    attempted: no request is sent to Bedrock, the cursor does not move
    and nothing is written. *)
Theorem load_failure_fails_chat (env : Env) (request : ChatRequest)
    (w w0 w1 : World) (sid : string) (e : Exn) :
  session_id_or_uuid4 env (session_id request) w = (Ok sid, w0) ->
  load_conversation env sid w0 = (Raise e, w1) ->
  chat env request w = (Raise (HTTPException 500 (exn_str e)), w1) /\
  bedrock_log w1 = bedrock_log w /\
  current_region_index w1 = current_region_index w /\
  files w1 = files w /\ objects w1 = objects w.
Proof.
  intros Hsid Hload.
  destruct (load_conversation_raises env sid w0 e w1 Hload) as [f ->].
  split; [rewrite chat_eq, Hsid, Hload, chat_except_throw; reflexivity|].
  pose proof (load_conversation_frame env sid w0) as (Lf & Lo & Lc & Ll & _).
  rewrite Hload in *. simpl in *.
  rewrite session_id_or_uuid4_eq in Hsid.
  destruct (session_id request) as [x0|]; [destruct (String.eqb x0 "")|];
    injection Hsid as _ <-; repeat split; assumption.
Qed.

Lemma load_failure_fails_chat_witness :
  chat (sample_env true "r1,r2" (throttle_first 0) (fault_at 0))
       (mkChatRequest "hi" (Some "s-1")) fresh_world
  = (Raise (HTTPException 500
       "An error occurred (InternalError) when calling the PutObject operation: We encountered an internal error."),
     set_io_ops 1 fresh_world).
Proof.
  apply (load_failure_fails_chat
           (sample_env true "r1,r2" (throttle_first 0) (fault_at 0))
           (mkChatRequest "hi" (Some "s-1")) fresh_world fresh_world
           (set_io_ops 1 fresh_world) "s-1"
           (ClientError "InternalError"
              "An error occurred (InternalError) when calling the PutObject operation: We encountered an internal error."));
    [reflexivity | reflexivity].
Defined.

(* ===================================================================== *)
(** ** Further properties of the store *)
(* ===================================================================== *)

(** X9.  With the S3 back end, a [ClientError] of [get_object] whose
    code is not [NoSuchKey] is raised again by [load_conversation], and
    [get_conversation] answers it with a 500 that carries the text of the
    error. *)
Theorem s3_error_is_not_an_empty_history (env : Env) (sid : string) (w : World)
    (code t : string) :
  USE_S3 env = true ->
  io_fault env (io_ops w) = Some (ClientFailure code t) ->
  code <> "NoSuchKey" ->
  load_conversation env sid w
    = (Raise (ClientError code t), set_io_ops (S (io_ops w)) w) /\
  get_conversation env sid w
    = (Raise (HTTPException 500 t), set_io_ops (S (io_ops w)) w).
Proof.
  intros Hs3 Hio Hcode. apply String.eqb_neq in Hcode.
  assert (load_conversation env sid w
          = (Raise (ClientError code t), set_io_ops (S (io_ops w)) w)) as Hload.
  { unfold load_conversation, s3_get_object, try_except, bind, raise.
    rewrite Hs3, io_step_eq, Hio. simpl. rewrite Hcode. reflexivity. }
  split; [exact Hload|].
  unfold get_conversation, try_except, bind. rewrite Hload. reflexivity.
Qed.

Lemma s3_error_is_not_an_empty_history_witness :
  fst (get_conversation (sample_env true "r1,r2" (throttle_first 0) (fault_at 0))
         "s-1" fresh_world)
  = Raise (HTTPException 500
      "An error occurred (InternalError) when calling the PutObject operation: We encountered an internal error.").
Proof.
  destruct (s3_error_is_not_an_empty_history
              (sample_env true "r1,r2" (throttle_first 0) (fault_at 0))
              "s-1" fresh_world "InternalError"
              "An error occurred (InternalError) when calling the PutObject operation: We encountered an internal error.")
    as [_ Hget]; [reflexivity | reflexivity | discriminate |].
  rewrite Hget. reflexivity.
Defined.

(** X10.  A stored document that the JSON library cannot read is an
    error, not an empty history, under both back ends:
    [load_conversation] raises the decoding error and
    [get_conversation] answers with a 500 that carries its text. *)
Theorem undecodable_document_raises (env : Env) (sid : string) (w : World)
    (doc err : string) :
  stored env w sid = Some doc ->
  io_fault env (io_ops w) = None ->
  json_loads env doc = inr err ->
  load_conversation env sid w
    = (Raise (OtherException err), set_io_ops (S (io_ops w)) w) /\
  get_conversation env sid w
    = (Raise (HTTPException 500 err), set_io_ops (S (io_ops w)) w).
Proof.
  intros Hdoc Hio Hjson.
  assert (load_conversation env sid w
          = (Raise (OtherException err), set_io_ops (S (io_ops w)) w)) as Hload.
  { revert Hdoc.
    unfold stored, load_conversation, s3_get_object, read_file,
      os_path_exists, json_decode, try_except, bind, ret, raise.
    destruct (USE_S3 env); intros Hdoc.
    - rewrite io_step_eq, Hio. simpl. rewrite Hdoc. simpl. rewrite Hjson.
      reflexivity.
    - rewrite Hdoc. rewrite bool_decide_eq_true_2 by eauto.
      rewrite io_step_eq, Hio. simpl. rewrite Hdoc. simpl. rewrite Hjson.
      reflexivity. }
  split; [exact Hload|].
  unfold get_conversation, try_except, bind. rewrite Hload. reflexivity.
Qed.

Lemma undecodable_document_raises_witness :
  fst (get_conversation (sample_env true "r1,r2" (throttle_first 0) no_faults)
         "s-1" corrupt_world)
  = Raise (HTTPException 500 "Expecting value").
Proof.
  destruct (undecodable_document_raises
              (sample_env true "r1,r2" (throttle_first 0) no_faults)
              "s-1" corrupt_world "{not json" "Expecting value")
    as [_ Hget]; [reflexivity | reflexivity | reflexivity |].
  rewrite Hget. reflexivity.
Defined.

(** X11.  A save replaces the whole document: after two saves for the
    same session the store holds the second list only, and a load
    returns it. *)
Theorem save_overwrites (env : Env) (sid : string) (first second : list Message)
    (w w1 w2 : World) :
  save_conversation env sid first w = (Ok tt, w1) ->
  save_conversation env sid second w1 = (Ok tt, w2) ->
  io_fault env (io_ops w2) = None ->
  json_loads env (json_dumps env second) = inl second ->
  stored env w2 sid = Some (json_dumps env second) /\
  fst (load_conversation env sid w2) = Ok second /\
  files w2 = files_with env w sid (json_dumps env second) /\
  objects w2 = objects_with env w sid (json_dumps env second).
Proof.
  intros H1 H2 Hio Hjson.
  pose proof (stored_after_save env sid second w1 w2 H2) as Hdoc.
  split; [exact Hdoc|]. split.
  { rewrite (load_conversation_stored env sid w2 _ second Hdoc Hio Hjson).
    reflexivity. }
  destruct (save_conversation_cases env sid first w)
    as [(x & E & Hf1 & Ho1 & _)|(f & x & E & _)];
    rewrite E in H1; [injection H1 as ->|discriminate].
  destruct (save_conversation_cases env sid second w1)
    as [(x & E2 & Hf2 & Ho2 & _)|(f & x & E2 & _)];
    rewrite E2 in H2; [injection H2 as ->|discriminate].
  rewrite Hf2, Ho2. unfold files_with, objects_with in *.
  destruct (USE_S3 env).
  - rewrite Hf1, Ho1, insert_insert_eq. split; reflexivity.
  - rewrite Hf1, Ho1, insert_insert_eq. split; reflexivity.
Qed.

Lemma save_overwrites_witness :
  fst (load_conversation (sample_env false "r1,r2" (throttle_first 0) no_faults) "s-1"
         (snd (save_conversation
                 (sample_env false "r1,r2" (throttle_first 0) no_faults)
                 "s-1" (turn "again" "sure")
                 (snd (save_conversation
                         (sample_env false "r1,r2" (throttle_first 0) no_faults)
                         "s-1" (turn "hi" "hello") fresh_world)))))
  = Ok (turn "again" "sure").
Proof.
  apply (save_overwrites (sample_env false "r1,r2" (throttle_first 0) no_faults)
           "s-1" (turn "hi" "hello") (turn "again" "sure") fresh_world
           (snd (save_conversation
                   (sample_env false "r1,r2" (throttle_first 0) no_faults)
                   "s-1" (turn "hi" "hello") fresh_world)));
    [vm_compute; reflexivity | vm_compute; reflexivity | reflexivity
    | apply json_loads_dumps].
Defined.

Lemma append_inj_r (a b s : string) : a +:+ s = b +:+ s -> a = b.
Proof.
  revert b. induction a as [|x a IH]; intros [|y b] H.
  - reflexivity.
  - exfalso. apply (f_equal String.length) in H.
    rewrite append_nil, append_cons in H. simpl in H.
    rewrite string_length_app in H. lia.
  - exfalso. apply (f_equal String.length) in H.
    rewrite append_nil, append_cons in H. simpl in H.
    rewrite string_length_app in H. lia.
  - rewrite !append_cons in H. injection H as -> H. f_equal. apply IH, H.
Qed.

Lemma get_memory_path_inj a b : get_memory_path a = get_memory_path b -> a = b.
Proof. unfold get_memory_path. apply append_inj_r. Qed.

(** X12.  With the S3 back end the sessions are independent: whatever a
    [chat] for one session id does, the stored document of every other
    session id is left as it was. *)
Theorem s3_sessions_are_independent (env : Env) (request : ChatRequest)
    (sid other : string) (w : World) :
  USE_S3 env = true ->
  session_id request = Some sid ->
  sid <> "" ->
  other <> sid ->
  stored env (snd (chat env request w)) other = stored env w other.
Proof.
  intros Hs3 Hreq Hsid Hother.
  destruct (chat env request w) as [[resp|e] w'] eqn:Hchat; simpl.
  - destruct (chat_ok_inv env request w resp w' Hchat)
      as (w0 & w1 & conversation & n & Hsession & _ & _ & _ & Ho).
    rewrite session_id_or_uuid4_eq, Hreq in Hsession.
    apply String.eqb_neq in Hsid. rewrite Hsid in Hsession.
    injection Hsession as Hresp _.
    unfold stored. rewrite Hs3, Ho. unfold objects_with. rewrite Hs3.
    apply lookup_insert_ne. intros H. apply Hother.
    symmetry. rewrite Hresp. apply get_memory_path_inj.
    exact (f_equal snd H).
  - destruct (chat_raise_frame env request w e w' Hchat) as [Ho _].
    unfold stored. rewrite Hs3, Ho. reflexivity.
Qed.

Lemma s3_sessions_are_independent_witness :
  stored (sample_env true "r1,r2" (throttle_first 0) no_faults)
    (snd (chat (sample_env true "r1,r2" (throttle_first 0) no_faults)
            (mkChatRequest "hi" (Some "s-2")) corrupt_world)) "s-1"
  = Some "{not json".
Proof.
  rewrite (s3_sessions_are_independent
             (sample_env true "r1,r2" (throttle_first 0) no_faults)
             (mkChatRequest "hi" (Some "s-2")) "s-2" "s-1" corrupt_world);
    [reflexivity | reflexivity | reflexivity | discriminate | discriminate].
Defined.

Lemma startswith_slash_memory_path sid :
  Py.startswith_slash (get_memory_path sid) = Py.startswith_slash sid.
Proof. destruct sid; reflexivity. Qed.

Lemma startswith_slash_append a b :
  Py.startswith_slash a = true -> Py.startswith_slash (a +:+ b) = true.
Proof. destruct a; [discriminate|]. intros H. exact H. Qed.

(** X13.  With the local back end and an absolute [MEMORY_DIR] (one
    that starts with a slash and does not end with one), the session id
    made of the directory, a slash and another session id names the very
    file of that other session: [os.path.join] drops the directory in
    front of an absolute name.  What is saved under one of the two ids
    is what the other one finds. *)
Theorem absolute_session_id_shares_file (env : Env) (sid : string) :
  USE_S3 env = false ->
  Py.startswith_slash (MEMORY_DIR env) = true ->
  Py.endswith_slash (MEMORY_DIR env) = false ->
  Py.startswith_slash sid = false ->
  let twin := MEMORY_DIR env +:+ "/" +:+ sid in
  (forall w, stored env w twin = stored env w sid) /\
  (forall msgs w w',
     save_conversation env twin msgs w = (Ok tt, w') ->
     stored env w' sid = Some (json_dumps env msgs)).
Proof.
  intros Hlocal Habs Hend Hsid twin.
  assert (Py.os_path_join (MEMORY_DIR env) (get_memory_path twin)
          = Py.os_path_join (MEMORY_DIR env) (get_memory_path sid)) as Hpath.
  { unfold Py.os_path_join.
    rewrite !startswith_slash_memory_path, Hsid.
    unfold twin. rewrite (startswith_slash_append _ _ Habs), Hend.
    destruct (MEMORY_DIR env) as [|c d]; [discriminate|].
    simpl (String.eqb _ _). simpl orb. cbv iota.
    unfold get_memory_path. rewrite !append_assoc. reflexivity. }
  assert (forall w, stored env w twin = stored env w sid) as Hsame.
  { intros w. unfold stored. rewrite Hlocal, Hpath. reflexivity. }
  split; [exact Hsame|].
  intros msgs w w' Hsave. rewrite <- Hsame.
  eapply stored_after_save, Hsave.
Qed.

Lemma absolute_session_id_shares_file_witness :
  stored (local_env "/data")
    (snd (save_conversation (local_env "/data") "/data/s-1" (turn "hi" "hello")
            fresh_world)) "s-1"
  = Some (Json.dumps (turn "hi" "hello")).
Proof.
  destruct (absolute_session_id_shares_file (local_env "/data") "s-1")
    as [_ H]; [reflexivity | reflexivity | reflexivity | reflexivity |].
  apply (H (turn "hi" "hello") fresh_world). vm_compute. reflexivity.
Defined.

(** X14.  What [chat] has stored, [get_conversation] returns: after a
    successful [chat], asking for the conversation of the session id of
    the response gives the history the chat had loaded followed by the
    user message and the reply, in this order. *)
Theorem chat_then_get_conversation (env : Env) (request : ChatRequest)
    (w w' : World) (resp : ChatResponse) :
  chat env request w = (Ok resp, w') ->
  (forall l, json_loads env (json_dumps env l) = inl l) ->
  io_fault env (io_ops w') = None ->
  exists w0 w1 conversation n,
    load_conversation env (resp_session_id resp) w0 = (Ok conversation, w1) /\
    files w0 = files w /\ objects w0 = objects w /\
    fst (get_conversation env (resp_session_id resp) w')
    = Ok (mkConversationView (resp_session_id resp)
            (conversation
               ++ [mkMessage "user" (message request) (now_isoformat env n);
                   mkMessage "assistant" (response resp) (now_isoformat env (S n))])).
Proof.
  intros Hchat Hjson Hio.
  destruct (chat_ok_inv env request w resp w' Hchat)
    as (w0 & w1 & conversation & n & Hsid & Hload & Hdoc & _).
  exists w0, w1, conversation, n. split; [exact Hload|].
  destruct (session_id_or_uuid4_ok env (session_id request) w)
    as (s & x & E & Ef & Eo & _).
  rewrite E in Hsid. injection Hsid as _ <-.
  split; [exact Ef|]. split; [exact Eo|].
  unfold get_conversation, try_except, bind, ret.
  rewrite (load_conversation_stored env _ w' _ _ Hdoc Hio (Hjson _)).
  reflexivity.
Qed.

Lemma chat_then_get_conversation_witness :
  exists w0 w1 conversation n,
    load_conversation (sample_env true "r1,r2" (throttle_first 1) no_faults)
      "s-1" w0 = (Ok conversation, w1) /\
    files w0 = files fresh_world /\ objects w0 = objects fresh_world /\
    fst (get_conversation (sample_env true "r1,r2" (throttle_first 1) no_faults) "s-1"
           (snd (chat (sample_env true "r1,r2" (throttle_first 1) no_faults)
                   (mkChatRequest "hi" (Some "s-1")) fresh_world)))
    = Ok (mkConversationView "s-1"
            (conversation
               ++ [mkMessage "user" "hi"
                     (now_isoformat
                        (sample_env true "r1,r2" (throttle_first 1) no_faults) n);
                   mkMessage "assistant" "hello from r2"
                     (now_isoformat
                        (sample_env true "r1,r2" (throttle_first 1) no_faults) (S n))])).
Proof.
  apply (chat_then_get_conversation
           (sample_env true "r1,r2" (throttle_first 1) no_faults)
           (mkChatRequest "hi" (Some "s-1")) fresh_world
           (snd (chat (sample_env true "r1,r2" (throttle_first 1) no_faults)
                   (mkChatRequest "hi" (Some "s-1")) fresh_world))
           (mkChatResponse "hello from r2" "s-1"));
    [vm_compute; reflexivity | intros l; apply json_loads_dumps | reflexivity].
Defined.

(** X15.  A session id that is given and not empty is used as it is:
    [chat] draws no uuid, answers with the same session id, and on
    success the conversation is stored under it. *)
Theorem given_session_id_is_kept (env : Env) (request : ChatRequest)
    (sid : string) (w : World) :
  session_id request = Some sid ->
  sid <> "" ->
  uuids_drawn (snd (chat env request w)) = uuids_drawn w /\
  (forall resp w',
     chat env request w = (Ok resp, w') ->
     resp_session_id resp = sid /\ is_Some (stored env w' sid)).
Proof.
  intros Hreq Hsid. apply String.eqb_neq in Hsid.
  assert (session_id_or_uuid4 env (session_id request) w = (Ok sid, w)) as Hsession.
  { rewrite session_id_or_uuid4_eq, Hreq, Hsid. reflexivity. }
  split.
  - rewrite chat_eq, Hsession.
    pose proof (load_conversation_frame env sid w) as (_ & _ & _ & _ & _ & Lu).
    destruct (load_conversation env sid w) as [[conversation|x] w1];
      simpl in Lu; [|exact Lu].
    pose proof (call_bedrock_frame env conversation (message request) w1)
      as (_ & _ & _ & _ & Du).
    destruct (call_bedrock env conversation (message request) w1)
      as [[reply|x] w2]; simpl in Du; [|simpl; congruence].
    destruct (save_conversation_cases env sid
                (conversation ++ new_turn env (message request) reply (clock_reads w2))
                (set_clock_reads (S (S (clock_reads w2))) w2))
      as [(w3 & -> & _ & _ & _ & _ & _ & Su)|(f & w3 & -> & _ & _ & _ & _ & _ & Su)];
      simpl in *; congruence.
  - intros resp w' Hchat.
    destruct (chat_ok_inv env request w resp w' Hchat)
      as (w0 & w1 & conversation & n & Hs & _ & Hdoc & _).
    rewrite Hsession in Hs. injection Hs as Hresp _.
    split; [symmetry; exact Hresp|].
    rewrite Hresp. eexists. exact Hdoc.
Qed.

Lemma given_session_id_is_kept_witness :
  uuids_drawn
    (snd (chat (sample_env true "r1,r2" (throttle_first 0) no_faults)
            (mkChatRequest "hi" (Some "s-1")) fresh_world)) = 0.
Proof.
  apply (given_session_id_is_kept
           (sample_env true "r1,r2" (throttle_first 0) no_faults)
           (mkChatRequest "hi" (Some "s-1")) "s-1" fresh_world);
    [reflexivity | discriminate].
Defined.

(** X16.  [get_conversation] only reads: it leaves the stored documents,
    the cursor and the Bedrock log alone.  When it returns, it returns
    the session id it was given and the loaded messages; when it fails,
    it fails with a 500; for a session without a stored record it
    returns the empty list. *)
Theorem get_conversation_only_reads (env : Env) (sid : string) (w : World) :
  io_count_only w (snd (get_conversation env sid w)) /\
  (forall view w',
     get_conversation env sid w = (Ok view, w') ->
     view_session_id view = sid /\
     load_conversation env sid w = (Ok (messages view), w')) /\
  (forall e w',
     get_conversation env sid w = (Raise e, w') ->
     exists d, e = HTTPException 500 d) /\
  (stored env w sid = None ->
   (USE_S3 env = true -> io_fault env (io_ops w) = None) ->
   fst (get_conversation env sid w) = Ok (mkConversationView sid [])).
Proof.
  pose proof (load_conversation_frame env sid w) as Hframe.
  unfold get_conversation, try_except, bind, ret, raise.
  split; [|split; [|split]].
  - destruct (load_conversation env sid w) as [[conversation|x] w1]; exact Hframe.
  - intros view w'.
    destruct (load_conversation env sid w) as [[conversation|x] w1];
      [|discriminate].
    intros H. injection H as <- <-. split; reflexivity.
  - intros e w'.
    destruct (load_conversation env sid w) as [[conversation|x] w1];
      [discriminate|].
    intros H. injection H as <- _. eexists. reflexivity.
  - intros Hnone Hio.
    unfold stored in Hnone.
    unfold load_conversation, s3_get_object, os_path_exists, try_except, bind, ret.
    destruct (USE_S3 env).
    + rewrite io_step_eq, (Hio eq_refl). simpl. rewrite Hnone. reflexivity.
    + rewrite Hnone. rewrite bool_decide_eq_false_2; [reflexivity|].
      intros [x Hx]. discriminate.
Qed.

Lemma get_conversation_only_reads_witness :
  fst (get_conversation (sample_env false "r1,r2" (throttle_first 0) no_faults)
         "never-seen" fresh_world)
  = Ok (mkConversationView "never-seen" []).
Proof.
  destruct (get_conversation_only_reads
              (sample_env false "r1,r2" (throttle_first 0) no_faults)
              "never-seen" fresh_world) as (_ & _ & _ & H).
  apply H; [reflexivity | discriminate].
Defined.

(** X17.  [health_check] reports the region under the cursor: with a
    valid cursor it returns, changes nothing, lists the configured
    regions and names one of them as the current region; with a cursor
    outside the list it raises the [IndexError]. *)
Theorem health_check_reports_cursor (env : Env) (w : World) :
  (current_region_index w < region_count env ->
   exists report,
     health_check env w = (Ok report, w) /\
     current_region report = region_at env (current_region_index w) /\
     In (current_region report) (BEDROCK_REGIONS env) /\
     bedrock_regions report = BEDROCK_REGIONS env) /\
  (region_count env <= current_region_index w ->
   health_check env w = (Raise (OtherException "list index out of range"), w)).
Proof.
  unfold health_check. split.
  - intros Hc. rewrite (region_lookup env _ Hc).
    eexists. split; [reflexivity|]. simpl.
    split; [reflexivity|]. split; [|reflexivity].
    unfold region_at. apply nth_In, Hc.
  - intros Hc. rewrite (lookup_ge_None_2 (BEDROCK_REGIONS env) _ Hc). reflexivity.
Qed.

Lemma health_check_reports_cursor_witness :
  exists report,
    health_check (sample_env true "r1,r2,r3" (throttle_first 0) no_faults)
      (set_current_region_index 2 fresh_world)
    = (Ok report, set_current_region_index 2 fresh_world) /\
    current_region report = "r3".
Proof.
  destruct (health_check_reports_cursor
              (sample_env true "r1,r2,r3" (throttle_first 0) no_faults)
              (set_current_region_index 2 fresh_world)) as [H _].
  destruct H as (report & Hres & Hregion & _); [vm_compute; lia|].
  exists report. split; [exact Hres|]. rewrite Hregion. reflexivity.
Defined.

(* ===================================================================== *)
(** ** Further properties of the configuration and of session ids *)
(* ===================================================================== *)

Lemma join_cons_nonempty sep x y l :
  Py.join sep (x :: y :: l) = x +:+ sep +:+ Py.join sep (y :: l).
Proof. reflexivity. Qed.

Lemma join_push_char sep c h t :
  Py.join sep (String c h :: t) = String c (Py.join sep (h :: t)).
Proof. destruct t; reflexivity. Qed.

Lemma join_split sep s :
  Py.join (String sep "") (Py.split sep s) = s.
Proof.
  induction s as [|c s IH]; [reflexivity|].
  simpl Py.split.
  destruct (Ascii.eqb_spec c sep) as [->|Hne].
  - destruct (Py.split sep s) as [|h t] eqn:E;
      [exfalso; eapply split_nonempty, E|].
    rewrite join_cons_nonempty, IH. reflexivity.
  - destruct (Py.split sep s) as [|h t] eqn:E;
      [exfalso; eapply split_nonempty, E|].
    rewrite join_push_char, IH. reflexivity.
Qed.

Lemma split_pieces_without_separator sep s :
  Forall (fun piece => ~ In sep (list_ascii_of_string piece)) (Py.split sep s).
Proof.
  induction s as [|c s IH]; simpl Py.split.
  - constructor; [intros []|constructor].
  - destruct (Ascii.eqb_spec c sep) as [->|Hne].
    + constructor; [intros []|exact IH].
    + destruct (Py.split sep s) as [|h t]; [constructor; [|constructor]|].
      * simpl. intros [H|[]]. contradiction.
      * inversion IH as [|? ? Hh Ht]; subst.
        constructor; [|exact Ht].
        simpl. intros [H|H]; [contradiction|exact (Hh H)].
Qed.

(** X18.  The region list is the comma-separated variable cut at its
    commas: it is never empty, no region name holds a comma, and putting
    the names together with commas gives the variable back (the default
    ["us-west-2,us-east-1,us-east-2"] when it is not set). *)
Theorem regions_are_the_variable_cut_at_commas (env : Env) :
  BEDROCK_REGIONS env <> [] /\
  0 < region_count env /\
  Forall (fun region => ~ In ","%char (list_ascii_of_string region))
         (BEDROCK_REGIONS env) /\
  Py.join "," (BEDROCK_REGIONS env)
  = match getenv_BEDROCK_REGIONS env with
    | Some v => v
    | None => "us-west-2,us-east-1,us-east-2"
    end.
Proof.
  unfold BEDROCK_REGIONS.
  split; [apply split_nonempty|].
  split; [apply region_count_pos|].
  split; [apply split_pieces_without_separator|].
  apply (join_split ",").
Qed.

Lemma hex_fixed_length width n : String.length (Py.hex_fixed width n) = width.
Proof. induction width as [|k IH]; simpl; [reflexivity|]. rewrite IH. reflexivity. Qed.

Lemma substring_length n : forall m s,
  n + m <= String.length s -> String.length (substring n m s) = m.
Proof.
  induction n as [|n IHn]; intros m s H.
  - revert s H. induction m as [|m IHm]; intros s H.
    + destruct s; reflexivity.
    + destruct s as [|c s]; simpl in *; [lia|]. rewrite IHm by lia. reflexivity.
  - destruct s as [|c s]; simpl in *; [lia|]. apply IHn. lia.
Qed.

(** X19.  The session id [chat] makes up for a request without one is a
    string of 36 characters. *)
Theorem generated_session_id_has_36_characters (env : Env)
    (user_message : string) (w w' : World) (resp : ChatResponse) :
  chat env (mkChatRequest user_message None) w = (Ok resp, w') ->
  String.length (resp_session_id resp) = 36 /\
  resp_session_id resp = uuid4_str env (uuids_drawn w).
Proof.
  intros Hchat.
  destruct (chat_ok_inv env _ w resp w' Hchat) as (w0 & w1 & _ & _ & Hsid & _).
  simpl in Hsid. unfold str_uuid4 in Hsid. injection Hsid as Hsid _.
  split; [|symmetry; exact Hsid].
  rewrite <- Hsid. unfold uuid4_str, Py.str_uuid.
  set (hex := Py.hex_fixed 32 _).
  assert (String.length hex = 32) as Hlen by apply hex_fixed_length.
  rewrite !string_length_app, !substring_length by lia.
  reflexivity.
Qed.

Lemma generated_session_id_has_36_characters_witness :
  String.length
    (resp_session_id (mkChatResponse "hello from r1" "00000000-0000-4000-8000-000000000000"))
  = 36.
Proof.
  apply (generated_session_id_has_36_characters
           (sample_env true "r1,r2" (throttle_first 0) no_faults) "hi" fresh_world
           (snd (chat (sample_env true "r1,r2" (throttle_first 0) no_faults)
                   (mkChatRequest "hi" None) fresh_world))).
  vm_compute. reflexivity.
Defined.

(** X20.  The storage named by the root endpoint is the one the saves
    go to: it answers ["S3"] exactly when a successful save writes the
    object and leaves the local files alone, and ["local"] exactly when
    it writes the file and leaves the bucket alone.  The endpoint itself
    changes nothing. *)
Theorem root_names_the_store_in_use (env : Env) (w : World) :
  exists info,
    root env w = (Ok info, w) /\
    ai_model info = BEDROCK_MODEL_ID env /\
    forall sid msgs w0 w1,
      save_conversation env sid msgs w0 = (Ok tt, w1) ->
      (storage info = "S3" /\
       files w1 = files w0 /\
       objects w1
       = <[(S3_BUCKET env, get_memory_path sid) := json_dumps env msgs]> (objects w0))
      \/
      (storage info = "local" /\
       objects w1 = objects w0 /\
       files w1
       = <[Py.os_path_join (MEMORY_DIR env) (get_memory_path sid)
             := json_dumps env msgs]> (files w0)).
Proof.
  eexists. split; [reflexivity|]. split; [reflexivity|].
  intros sid msgs w0 w1 Hsave. simpl.
  destruct (save_conversation_cases env sid msgs w0)
    as [(x & E & Hf & Ho & _)|(f & x & E & _)];
    rewrite E in Hsave; [injection Hsave as ->|discriminate].
  unfold files_with, objects_with in *.
  destruct (USE_S3 env); [left|right]; repeat split; assumption.
Qed.

Lemma root_names_the_store_in_use_witness :
  exists info,
    root (sample_env true "r1,r2" (throttle_first 0) no_faults) fresh_world
    = (Ok info, fresh_world) /\
    storage info = "S3".
Proof.
  destruct (root_names_the_store_in_use
              (sample_env true "r1,r2" (throttle_first 0) no_faults) fresh_world)
    as (info & Hroot & _ & Hsave).
  exists info. split; [exact Hroot|].
  destruct (Hsave "s-1" (turn "hi" "hello") fresh_world
              (snd (save_conversation
                      (sample_env true "r1,r2" (throttle_first 0) no_faults)
                      "s-1" (turn "hi" "hello") fresh_world)))
    as [(Hs & _)|(_ & Ho & _)]; [vm_compute; reflexivity | exact Hs |].
  exfalso. revert Ho. vm_compute. discriminate.
Defined.
